(** * albatross: fit / predict dispatch and cross-validation reassembly

    A shallow embedding of [albatross/core/model.h],
    [albatross/core/fit_model.h] and
    [albatross/src/evaluation/cross_validation_utils.hpp].

    Conventions of the embedding.
    - A failed [assert] (or [eigen_assert]) aborts the process; it is the
      outcome [AssertionFailure].  [std::map::at] on a missing key throws
      [std::out_of_range]; it is the outcome [OutOfRange].
    - [std::vector] and [Eigen::VectorXd] are lists.  [std::size_t] and
      [Eigen::Index] are 64 bit wide and no container is longer than
      [PTRDIFF_MAX], so a conversion between the two keeps the value and is
      not written; the conversion to [s32] (= [int32_t]) loses the high
      bits and is written out as [s32_of].
    - [std::map] is an association list in iteration (key) order.
    - [double] is an abstract type [scalar]: no claim depends on its
      arithmetic. *)

From Stdlib Require Import ZArith QArith Lia.
From stdpp Require Import base option list numbers strings.

Local Open Scope Z_scope.
Local Open Scope nat_scope.

(** ** Outcomes of a call *)

Inductive outcome (A : Type) : Type :=
| Ok (a : A)
| AssertionFailure
| OutOfRange
| IllFormed (member : string).
Arguments Ok {A} a.
Arguments AssertionFailure {A}.
Arguments OutOfRange {A}.
Arguments IllFormed {A} member.

Definition is_ok {A} (r : outcome A) : bool :=
  match r with Ok _ => true | _ => false end.

Definition outcome_bind {A B} (f : A → outcome B) (r : outcome A) : outcome B :=
  match r with
  | Ok a => f a
  | AssertionFailure => AssertionFailure
  | OutOfRange => OutOfRange
  | IllFormed s => IllFormed s
  end.

Definition outcome_map {A B} (f : A → B) (r : outcome A) : outcome B :=
  outcome_bind (λ a, Ok (f a)) r.

#[global] Instance outcome_mret : MRet outcome := @Ok.
#[global] Instance outcome_mbind : MBind outcome := @outcome_bind.
#[global] Instance outcome_fmap : FMap outcome := @outcome_map.

(** [assert(b)] *)
Definition cpp_assert (b : bool) : outcome () :=
  if b then Ok () else AssertionFailure.

(** A call that may also write to [std::cout]: the text written so far and
    the outcome.  Text written before an abort stays written. *)
Record io (A : Type) : Type := IO { stdout : list string; result : outcome A }.
Arguments IO {A} stdout result.
Arguments stdout {A} i.
Arguments result {A} i.

Definition io_bind {A B} (f : A → io B) (m : io A) : io B :=
  match result m with
  | Ok a => IO (stdout m ++ stdout (f a)) (result (f a))
  | AssertionFailure => IO (stdout m) AssertionFailure
  | OutOfRange => IO (stdout m) OutOfRange
  | IllFormed s => IO (stdout m) (IllFormed s)
  end.

#[global] Instance io_mret : MRet io := λ A a, IO [] (Ok a).
#[global] Instance io_mbind : MBind io := @io_bind.

Definition io_assert (b : bool) : io () := IO [] (cpp_assert b).
Definition cout (s : string) : io () := IO [s] (Ok ()).

(** ** Integer conversions *)

(** [static_cast<s32>(n)] of a size: the low 32 bits, read as two's
    complement. *)
Definition s32_of (n : nat) : Z :=
  ((Z.of_nat n + 2 ^ 31) `mod` 2 ^ 32 - 2 ^ 31)%Z.

Definition s32_eqb (n m : nat) : bool := bool_decide (s32_of n = s32_of m).

(** ** Vectors, matrices and distributions *)

Section Distributions.
Context {scalar : Type}.

(** [Eigen::MatrixXd] as the list of its rows, [Eigen::DiagonalMatrix]
    as its diagonal. *)
Definition VectorXd : Type := list scalar.
Definition MatrixXd : Type := list (list scalar).
Definition DiagonalMatrixXd : Type := list scalar.

(** [M.diagonal()]: the coefficients [M(i,i)], [i] below both the number
    of rows and the number of columns. *)
Fixpoint diagonal_from (i : nat) (M : MatrixXd) : VectorXd :=
  match M with
  | [] => []
  | row :: M' =>
      match row !! i with
      | Some x => x :: diagonal_from (S i) M'
      | None => []
      end
  end.

(** The covariance types [Distribution] is instantiated with. *)
Class CovarianceType (C : Type) := diagonal : C → VectorXd.
#[global] Instance dense_covariance : CovarianceType MatrixXd :=
  diagonal_from 0.
#[global] Instance diagonal_covariance : CovarianceType DiagonalMatrixXd :=
  λ d, d.

(** [v.asDiagonal()] *)
Definition asDiagonal (v : VectorXd) : DiagonalMatrixXd := v.

(** Modelled from the spec: [distribution.h] is not part of the sources
    at hand.  A distribution carries a mean vector and a covariance (a
    full matrix for a joint distribution, a variance per element for a
    marginal one), and [size()] is its element count. *)
Record Distribution (C : Type) : Type :=
  MkDistribution { mean : VectorXd; covariance : C }.
#[global] Arguments MkDistribution {C} mean covariance.
#[global] Arguments mean {C} d.
#[global] Arguments covariance {C} d.

Definition JointDistribution : Type := Distribution MatrixXd.
Definition MarginalDistribution : Type := Distribution DiagonalMatrixXd.

Definition size {C} (d : Distribution C) : nat := length (mean d).

(** The coefficient [(i,j)] of a diagonal matrix read as a dense one. *)
Definition diagonal_coeff (zero : scalar) (d : DiagonalMatrixXd)
    (i j : nat) : option scalar :=
  if decide (i = j) then d !! i
  else if decide (i < length d ∧ j < length d) then Some zero else None.
End Distributions.
Arguments VectorXd scalar : clear implicits.
Arguments MatrixXd scalar : clear implicits.
Arguments DiagonalMatrixXd scalar : clear implicits.
Arguments Distribution scalar C : clear implicits.
Arguments JointDistribution scalar : clear implicits.
Arguments MarginalDistribution scalar : clear implicits.
Arguments CovarianceType scalar C : clear implicits.

(** ** Datasets and folds ([model.h]) *)

Section Datasets.
Context {scalar FeatureType : Type}.

Record RegressionDataset : Type := MkRegressionDataset {
  features : list FeatureType;
  targets : MarginalDistribution scalar;
  metadata : list (string * string)
}.

(** The two-argument constructor: the sizes are compared as [int]. *)
Definition make_RegressionDataset (features_ : list FeatureType)
    (targets_ : MarginalDistribution scalar) : outcome RegressionDataset :=
  _ ← cpp_assert (s32_eqb (length features_) (size targets_));
  mret (MkRegressionDataset features_ targets_ []).

Definition FoldIndices : Type := list Z.
Definition FoldName : Type := string.

Record RegressionFold : Type := MkRegressionFold {
  train_dataset : RegressionDataset;
  test_dataset : RegressionDataset;
  name : FoldName;
  test_indices : FoldIndices
}.

(** [fold.m] for a member [m] that is then used as a dataset
    ([fold.m.features], [fold.m.targets]).  [RegressionFold] declares two
    members of a dataset type; naming any other member is ill-formed. *)
Definition RegressionFold_dataset_member (fold : RegressionFold)
    (m : string) : outcome RegressionDataset :=
  if String.eqb m "train_dataset" then Ok (train_dataset fold)
  else if String.eqb m "test_dataset" then Ok (test_dataset fold)
  else IllFormed m.
End Datasets.
Arguments RegressionDataset scalar FeatureType : clear implicits.
Arguments RegressionFold scalar FeatureType : clear implicits.

(** ** [RegressionModel<FeatureType>] ([model.h]) *)

(** The type a prediction is asked in: [Eigen::VectorXd] (alias
    [PredictMeanOnly]), [MarginalDistribution], [JointDistribution]. *)
Inductive Fidelity : Type := MeanOnly | Marginal | Joint.

Definition PredictType (scalar : Type) (fid : Fidelity) : Type :=
  match fid with
  | MeanOnly => VectorXd scalar
  | Marginal => MarginalDistribution scalar
  | Joint => JointDistribution scalar
  end.

(** The size the wrappers check: [preds.size()] of a mean vector,
    [preds.mean.size()] of a distribution. *)
Definition predicted_size {scalar} (fid : Fidelity) :
    PredictType scalar fid → nat :=
  match fid with
  | MeanOnly => λ preds, length preds
  | Marginal => λ preds, length (mean preds)
  | Joint => λ preds, length (mean preds)
  end.

Definition marginal_warning : string :=
  "WARNING: A marginal prediction is being made, but in a horribly inefficient way.".
Definition mean_warning : string :=
  "WARNING: A mean prediction is being made, but in a horribly inefficient way.".

Section RegressionModel.
Context {scalar FeatureType : Type}.
(** [Impl]: the data members a concrete model adds; [ParameterStore]: what
    [get_params()] of [ParameterHandlingMixin] returns, compared with
    its [operator==]. *)
Context {Impl ParameterStore : Type}.
Context (params_eqb : ParameterStore → ParameterStore → bool).

(** What a concrete model supplies: the pure virtual members, and the
    virtual members it may override ([None]: the default of the base
    class is inherited).  [fit_] and the prediction members are
    arbitrary code: they may print and may abort.  An override of
    [has_been_fit()] answers from the members of the object, those of the
    concrete model and [has_been_fit_] of the base. *)
Record ConcreteModel : Type := MkConcreteModel {
  get_name : Impl → string;
  get_params : Impl → ParameterStore;
  fit_ : list FeatureType → MarginalDistribution scalar → Impl → io Impl;
  predict_ : list FeatureType → Impl → io (JointDistribution scalar);
  predict_marginal_override :
    option (list FeatureType → Impl → io (MarginalDistribution scalar));
  predict_mean_override :
    option (list FeatureType → Impl → io (VectorXd scalar));
  has_been_fit_override : option (Impl → bool → bool)
}.

(** An object: its dynamic class, the members of that class, and the
    member [has_been_fit_] of the base class. *)
Record RegressionModel : Type := MkRegressionModel {
  vptr : ConcreteModel;
  derived : Impl;
  has_been_fit_ : bool
}.

(** The constructor value-initialises [has_been_fit_]. *)
Definition new_RegressionModel (c : ConcreteModel) (d : Impl) :
    RegressionModel :=
  MkRegressionModel c d false.

(** [has_been_fit()], a virtual member: the base class returns
    [has_been_fit_]. *)
Definition has_been_fit (m : RegressionModel) : bool :=
  match has_been_fit_override (vptr m) with
  | Some f => f (derived m) (has_been_fit_ m)
  | None => has_been_fit_ m
  end.

(** [operator==] of the base class. *)
Definition operator_eq (this other : RegressionModel) : io bool :=
  _ ← io_assert (negb (has_been_fit this));
  mret (String.eqb (get_name (vptr this) (derived this))
                   (get_name (vptr other) (derived other))
        && params_eqb (get_params (vptr this) (derived this))
                      (get_params (vptr other) (derived other))
        && Bool.eqb (has_been_fit this) (has_been_fit other)).

Definition fit (features_ : list FeatureType)
    (targets_ : MarginalDistribution scalar) (m : RegressionModel) :
    io RegressionModel :=
  _ ← io_assert (bool_decide (0 < length features_));
  _ ← io_assert (s32_eqb (length features_) (size targets_));
  d ← fit_ (vptr m) features_ targets_ (derived m);
  mret (MkRegressionModel (vptr m) d true).

Definition fit_dataset (dataset : RegressionDataset scalar FeatureType)
    (m : RegressionModel) : io RegressionModel :=
  fit (features dataset) (targets dataset) m.

(** The defaults of [predict_marginal_] and [predict_mean_]. *)
Definition default_predict_marginal_ (c : ConcreteModel)
    (features_ : list FeatureType) (d : Impl) :
    io (MarginalDistribution scalar) :=
  _ ← cout marginal_warning;
  full_distribution ← predict_ c features_ d;
  mret (MkDistribution (mean full_distribution)
          (asDiagonal (diagonal (covariance full_distribution)))).

Definition default_predict_mean_ (c : ConcreteModel)
    (features_ : list FeatureType) (d : Impl) : io (VectorXd scalar) :=
  _ ← cout mean_warning;
  full_distribution ← predict_ c features_ d;
  mret (mean full_distribution).

(** Virtual dispatch. *)
Definition predict_marginal_ (c : ConcreteModel) :
    list FeatureType → Impl → io (MarginalDistribution scalar) :=
  default (default_predict_marginal_ c) (predict_marginal_override c).

Definition predict_mean_ (c : ConcreteModel) :
    list FeatureType → Impl → io (VectorXd scalar) :=
  default (default_predict_mean_ c) (predict_mean_override c).

(** The member the wrapper of each fidelity calls. *)
Definition predict_impl (fid : Fidelity) (c : ConcreteModel) :
    list FeatureType → Impl → io (PredictType scalar fid) :=
  match fid with
  | MeanOnly => predict_mean_ c
  | Marginal => predict_marginal_ c
  | Joint => predict_ c
  end.

(** The three [predict] specialisations: they differ in the member
    called and in where the size is read. *)
Definition predict (fid : Fidelity) (features_ : list FeatureType)
    (m : RegressionModel) : io (PredictType scalar fid) :=
  _ ← io_assert (has_been_fit m);
  preds ← predict_impl fid (vptr m) features_ (derived m);
  _ ← io_assert (s32_eqb (predicted_size fid preds) (length features_));
  mret preds.

(** [predict(const FeatureType &feature)] *)
Definition predict_one (fid : Fidelity) (feature : FeatureType)
    (m : RegressionModel) : io (PredictType scalar fid) :=
  predict fid [feature] m.

(** [fit_and_predict]: the object after the call and the prediction. *)
Definition fit_and_predict (fid : Fidelity)
    (train_features : list FeatureType)
    (train_targets : MarginalDistribution scalar)
    (test_features : list FeatureType) (m : RegressionModel) :
    io (RegressionModel * PredictType scalar fid) :=
  m' ← fit train_features train_targets m;
  preds ← predict fid test_features m';
  mret (m', preds).

(** The overload taking a fold reads [fold.train] and [fold.test]. *)
Definition fit_and_predict_fold (fid : Fidelity)
    (fold : RegressionFold scalar FeatureType) (m : RegressionModel) :
    io (RegressionModel * PredictType scalar fid) :=
  train ← IO [] (RegressionFold_dataset_member fold "train");
  test ← IO [] (RegressionFold_dataset_member fold "test");
  fit_and_predict fid (features train) (targets train) (features test) m.

(** What [fit_and_predict] is documented to be, spelled out call by call:
    [fit] runs first; when it aborts nothing else happens; when it returns,
    [predict] runs on the fitted model, after the text [fit] has printed. *)
Definition fit_then_predict (fid : Fidelity)
    (train_features : list FeatureType)
    (train_targets : MarginalDistribution scalar)
    (test_features : list FeatureType) (m : RegressionModel) :
    io (RegressionModel * PredictType scalar fid) :=
  let fitted := fit train_features train_targets m in
  match result fitted with
  | Ok m' =>
      let predicted := predict fid test_features m' in
      IO (stdout fitted ++ stdout predicted)
         (match result predicted with
          | Ok preds => Ok (m', preds)
          | AssertionFailure => AssertionFailure
          | OutOfRange => OutOfRange
          | IllFormed s => IllFormed s
          end)
  | AssertionFailure => IO (stdout fitted) AssertionFailure
  | OutOfRange => IO (stdout fitted) OutOfRange
  | IllFormed s => IO (stdout fitted) (IllFormed s)
  end.
End RegressionModel.
Arguments ConcreteModel scalar FeatureType Impl ParameterStore : clear implicits.
Arguments RegressionModel scalar FeatureType Impl ParameterStore : clear implicits.

(** ** [FitModel<ModelType, Fit>] ([fit_model.h]) *)

Module fit_model.
Section FitModel.
Context {ModelType Fit FeatureType : Type}.

Record FitModel : Type := MkFitModel { model_ : ModelType; fit_ : Fit }.

(** Modelled from the spec: the class [Prediction] is not part of the
    sources at hand.  It is a view bound to a fitted model and a query
    feature sequence that computes nothing until a fidelity is asked for:
    here, the three arguments its constructor receives. *)
Record Prediction : Type := MkPrediction {
  prediction_model : ModelType;
  prediction_fit : Fit;
  prediction_features : list FeatureType
}.

Definition predict (fm : FitModel) (features_ : list FeatureType) :
    Prediction :=
  MkPrediction (model_ fm) (fit_ fm) features_.

Definition get_fit (fm : FitModel) : Fit := fit_ fm.

Definition operator_eq (model_eqb : ModelType → ModelType → bool)
    (fit_eqb : Fit → Fit → bool) (this other : FitModel) : bool :=
  model_eqb (model_ this) (model_ other) && fit_eqb (fit_ this) (fit_ other).
End FitModel.
Arguments FitModel ModelType Fit : clear implicits.
Arguments Prediction ModelType Fit FeatureType : clear implicits.
End fit_model.

(** ** Cross validation ([cross_validation_utils.hpp]) *)

(** [m.at(k)] on a [std::map]. *)
Fixpoint map_at {K V} `{EqDecision K} (m : list (K * V)) (k : K) : outcome V :=
  match m with
  | [] => OutOfRange
  | (k', v) :: m' => if decide (k' = k) then Ok v else map_at m' k
  end.

(** A range-based [for] whose body may abort. *)
Fixpoint for_each {S X} (body : S → X → outcome S) (l : list X) (s : S) :
    outcome S :=
  match l with
  | [] => Ok s
  | x :: l' => s' ← body s x; for_each body l' s'
  end.

(** Modelled from the spec: the class [Grouped] behind [RegressionFolds]
    is not part of the sources at hand.  [apply] calls the function on
    every group in iteration order and collects the values under the same
    keys; [combine] concatenates the values of a grouping of numbers into
    one vector, in the same order. *)
Fixpoint apply_key_value {K A B} (f : K → A → outcome B) (g : list (K * A)) :
    outcome (list (K * B)) :=
  match g with
  | [] => Ok []
  | (k, a) :: g' =>
      b ← f k a; rest ← apply_key_value f g'; mret ((k, b) :: rest)
  end.

Definition apply_value {K A B} (f : A → outcome B) (g : list (K * A)) :
    outcome (list (K * B)) :=
  apply_key_value (λ _, f) g.

Definition combine {K A} (g : list (K * A)) : list A := g.*2.

Section CrossValidation.
Context {scalar FeatureType GroupKey : Type} `{EqDecision GroupKey}.

Definition RegressionFolds : Type :=
  list (GroupKey * RegressionFold scalar FeatureType).

(** Modelled from the spec: [RegressionDataset::size()] is not declared in
    the [model.h] at hand.  A dataset has as many targets as features, and
    its size is that number. *)
Definition dataset_size (d : RegressionDataset scalar FeatureType) : nat :=
  length (features d).

Section GetPredictions.
(** [ModelType::fit(dataset)] (of [ModelBase], not part of the sources at
    hand) is a parameter: whatever it does, it is [const] and returns a
    new [FitModel]. *)
Context {ModelType Fit : Type}.
Context (model_fit : ModelType → RegressionDataset scalar FeatureType →
                     outcome (fit_model.FitModel ModelType Fit)).

Definition predict_group (model : ModelType)
    (fold : RegressionFold scalar FeatureType) :
    outcome (fit_model.Prediction ModelType Fit FeatureType) :=
  fm ← model_fit model (train_dataset fold);
  mret (fit_model.predict fm (features (train_dataset fold))).

Definition get_predictions (model : ModelType) (folds : RegressionFolds) :
    outcome (list (GroupKey * fit_model.Prediction ModelType Fit FeatureType)) :=
  apply_value (predict_group model) folds.
End GetPredictions.

Section Scores.
(** [PredictionType] is any type with a [size()]; the metric is any
    callable, which may itself abort. *)
Context {PredictionType : Type} (prediction_size : PredictionType → nat).
Context (metric : PredictionType → MarginalDistribution scalar → outcome scalar).

Definition score_one_group (predictions : list (GroupKey * PredictionType))
    (key : GroupKey) (fold : RegressionFold scalar FeatureType) :
    outcome scalar :=
  p ← map_at predictions key;
  _ ← cpp_assert (bool_decide (dataset_size (test_dataset fold) = prediction_size p));
  p' ← map_at predictions key;
  metric p' (targets (test_dataset fold)).

Definition cross_validated_scores (folds : RegressionFolds)
    (predictions : list (GroupKey * PredictionType)) : outcome (VectorXd scalar) :=
  combine <$> apply_key_value (score_one_group predictions) folds.
End Scores.

(** The overload for a metric on mean vectors: every distribution is
    replaced by its mean first. *)
Definition cross_validated_scores_of_means {C : Type}
    (metric : VectorXd scalar → MarginalDistribution scalar → outcome scalar)
    (folds : RegressionFolds)
    (predictions : list (GroupKey * Distribution scalar C)) :
    outcome (VectorXd scalar) :=
  let converted := prod_map id mean <$> predictions in
  cross_validated_scores (length (A:=scalar)) metric folds converted.
End CrossValidation.
Arguments RegressionFolds scalar FeatureType GroupKey : clear implicits.

(** *** Reassembly in the original row order *)

(** [GroupIndexer]: for every group the rows of the parent dataset it
    holds. *)
Definition GroupIndices : Type := list nat.
Definition GroupIndexer : Type := list (string * GroupIndices).

Section Reassembly.
Context {scalar : Type}.
(** [dataset_size_from_indexer] is not part of the sources at hand: it is
    a parameter.  [Eigen::VectorXd v(n)] leaves its [n] coefficients
    indeterminate: [uninitialized v i] is what coefficient [i] of the
    vector declared as [v] holds, and the vectors [pred], [mean] and
    [variance] have nothing to do with one another. *)
Context (dataset_size_from_indexer : GroupIndexer → nat).
Context (uninitialized : string → nat → scalar).

Definition VectorXd_new (v : string) (n : nat) : VectorXd scalar :=
  uninitialized v <$> seq 0 n.

(** [to[i] = x]; Eigen asserts that the index is in range. *)
Definition assign_coeff (i : nat) (x : scalar) (to : VectorXd scalar) :
    outcome (VectorXd scalar) :=
  if decide (i < length to) then Ok (<[i:=x]> to) else AssertionFailure.

(** Modelled from the spec: [set_subset] is not part of the sources at
    hand.  It scatters the entries of [from] into [to] at the positions
    [indices] records: [to[indices[i]] = from[i]] for every [i], reading
    [from] under Eigen's range assertion. *)
Fixpoint set_subset (from : VectorXd scalar) (indices : GroupIndices)
    (to : VectorXd scalar) {struct indices} : outcome (VectorXd scalar) :=
  match indices with
  | [] => Ok to
  | i :: indices' =>
      match from with
      | [] => AssertionFailure
      | x :: from' => to' ← assign_coeff i x to; set_subset from' indices' to'
      end
  end.

(** The state of the mean loop: [pred] and [number_filled]. *)
Definition mean_loop_body (means : list (string * VectorXd scalar))
    (st : VectorXd scalar * nat) (pair : string * GroupIndices) :
    outcome (VectorXd scalar * nat) :=
  m ← map_at means pair.1;
  _ ← cpp_assert (bool_decide (length m = length pair.2));
  pred ← set_subset m pair.2 st.1;
  mret (pred, st.2 + length pair.2).

Definition concatenate_mean_predictions (indexer : GroupIndexer)
    (means : list (string * VectorXd scalar)) : outcome (VectorXd scalar) :=
  _ ← cpp_assert (bool_decide (length indexer = length means));
  let n := dataset_size_from_indexer indexer in
  st ← for_each (mean_loop_body means) indexer (VectorXd_new "pred" n, 0);
  _ ← cpp_assert (bool_decide (st.2 = n));
  mret st.1.

(** The state of the marginal loop: [mean], [variance] and
    [number_filled]. *)
Definition marginal_loop_body {C} `{!CovarianceType scalar C}
    (preds : list (string * Distribution scalar C))
    (st : VectorXd scalar * VectorXd scalar * nat)
    (pair : string * GroupIndices) :
    outcome (VectorXd scalar * VectorXd scalar * nat) :=
  p ← map_at preds pair.1;
  _ ← cpp_assert (bool_decide (size p = length pair.2));
  mean' ← set_subset (mean p) pair.2 st.1.1;
  variance' ← set_subset (diagonal (covariance p)) pair.2 st.1.2;
  mret (mean', variance', st.2 + length pair.2).

Definition concatenate_marginal_predictions {C} `{!CovarianceType scalar C}
    (indexer : GroupIndexer) (preds : list (string * Distribution scalar C)) :
    outcome (MarginalDistribution scalar) :=
  _ ← cpp_assert (bool_decide (length indexer = length preds));
  let n := dataset_size_from_indexer indexer in
  st ← for_each (marginal_loop_body preds) indexer
         (VectorXd_new "mean" n, VectorXd_new "variance" n, 0);
  _ ← cpp_assert (bool_decide (st.2 = n));
  mret (MkDistribution st.1.1 (asDiagonal st.1.2)).

(** The rows the loops assign, in the order they assign them: one
    assignment for every entry of every group. *)
Definition rows_written (indexer : GroupIndexer) : list nat :=
  concat indexer.*2.
End Reassembly.

(** ** Hyperparameter tuning *)

Module Tune.
Section Tune.
Context {scalar : Type}.

(** Modelled from the spec: the tuning engine (the header [Tune]) is not
    part of the sources at hand, only its tests are.  A prior is a
    validity constraint plus a log-likelihood, and may be marked as fixed;
    a parameter ([Parameter] in the
    tests, a reserved word here) is a value with an optional prior, and no prior means
    unconstrained. *)
Record Prior : Type := MkPrior {
  is_valid : scalar → bool;
  log_likelihood : scalar → scalar;
  is_fixed : bool
}.

Record Param : Type := MkParam {
  value : scalar;
  prior : option Prior
}.

Definition ParameterStore : Type := list (string * Param).

Definition parameter_is_valid (p : Param) : bool :=
  match prior p with
  | Some pr => is_valid pr (value p)
  | None => true
  end.

(** [model.params_are_valid()] *)
Definition params_are_valid (ps : ParameterStore) : bool :=
  forallb (λ np, parameter_is_valid np.2) ps.

(** A fixed prior removes its parameter from the search. *)
Definition is_tunable (p : Param) : bool :=
  match prior p with
  | Some pr => negb (is_fixed pr)
  | None => true
  end.

(** The arithmetic of [double] the objective needs, the transform between
    a parameter and its unconstrained image, and the cross-validated and
    aggregated metric of a model with given parameters (which may be NaN,
    and below which cross validation may abort). *)
Context (zero : scalar) (plus minus : scalar → scalar → scalar).
Context (transform inverse_transform : Param → scalar → scalar).

Inductive objective_value : Type := NaN | Finite (x : scalar).

Context (cross_validated_metric : ParameterStore → outcome objective_value).

(** Modelled from the spec: the optimizer is an external collaborator.
    It accepts an objective function over a real vector, the vector to
    start from and its maximum number of evaluations, and returns a best
    vector after its own termination condition.  Nothing else is known
    of it here. *)
Context (optimizer : (list scalar → outcome objective_value) →
                     list scalar → nat → outcome (list scalar)).

Definition prior_log_likelihood (ps : ParameterStore) : scalar :=
  foldr (λ np acc,
           plus (match prior np.2 with
                 | Some pr => log_likelihood pr (value np.2)
                 | None => zero
                 end) acc)
        zero ps.

(** Modelled from the spec: the optimizer works on the vector of the
    unconstrained images of the parameters that are searched. *)
Fixpoint get_tunable_values (ps : ParameterStore) : list scalar :=
  match ps with
  | [] => []
  | (_, p) :: ps' =>
      if is_tunable p then transform p (value p) :: get_tunable_values ps'
      else get_tunable_values ps'
  end.

Fixpoint set_tunable_values (xs : list scalar) (ps : ParameterStore) :
    ParameterStore :=
  match ps with
  | [] => []
  | (n, p) :: ps' =>
      if is_tunable p then
        match xs with
        | x :: xs' =>
            (n, MkParam (inverse_transform p x) (prior p))
            :: set_tunable_values xs' ps'
        | [] => (n, p) :: ps'
        end
      else (n, p) :: set_tunable_values xs ps'
  end.

(** Modelled from the spec: the objective of a candidate vector.
    (1) transform it back into model parameter space; (2) if a parameter
    is outside the support of its prior the objective is NaN, and the
    model is not evaluated; (3) otherwise evaluate the cross-validated
    metric and subtract the sum of the prior log-likelihoods. *)
Definition objective (ps : ParameterStore) (x : list scalar) :
    outcome objective_value :=
  let candidate := set_tunable_values x ps in
  if params_are_valid candidate then
    m ← cross_validated_metric candidate;
    mret (match m with
          | NaN => NaN
          | Finite v => Finite (minus v (prior_log_likelihood candidate))
          end)
  else mret NaN.

(** Modelled from the spec: [tuner.tune()] hands the objective to the
    optimizer, started at the current parameters, and returns the vector
    the optimizer returns, transformed back into model parameter space. *)
Definition tune (maxeval : nat) (ps : ParameterStore) : outcome ParameterStore :=
  x ← optimizer (objective ps) (get_tunable_values ps) maxeval;
  mret (set_tunable_values x ps).


End Tune.
Arguments Prior scalar : clear implicits.
Arguments Param scalar : clear implicits.
Arguments ParameterStore scalar : clear implicits.
Arguments objective_value scalar : clear implicits.
End Tune.

(** ** Concrete instances *)

(** Models over integer features and integer "scalars", used to run the
    definitions above on explicit inputs. *)

Definition int_params_eqb (p q : list (string * Z)) : bool := bool_decide (p = q).

(** Predicts every feature as its own mean, with the outer product of the
    features as covariance; fitting records nothing. *)
Definition outer_product_model : ConcreteModel Z Z () (list (string * Z)) :=
  {| get_name := λ _, "outer_product";
     get_params := λ _, [("scale", 1%Z)];
     fit_ := λ _ _ d, mret d;
     predict_ := λ fs _,
       mret (MkDistribution fs ((λ x, (λ y, (x * y)%Z) <$> fs) <$> fs));
     predict_marginal_override := None;
     predict_mean_override := None;
     has_been_fit_override := None |}.

(** A defective implementation: one predicted element whatever is asked. *)
Definition one_element_model : ConcreteModel Z Z () (list (string * Z)) :=
  {| get_name := λ _, "one_element";
     get_params := λ _, [];
     fit_ := λ _ _ d, mret d;
     predict_ := λ _ _, mret (MkDistribution [0%Z] [[1%Z]]);
     predict_marginal_override := Some (λ _ _, mret (MkDistribution [0%Z] [1%Z]));
     predict_mean_override := Some (λ _ _, mret [0%Z]);
     has_been_fit_override := None |}.

(** A feature sequence of [2^32 + 1] elements. *)
Definition long_features : list Z := replicate (Z.to_nat (2 ^ 32 + 1)) 0%Z.

Definition one_target : MarginalDistribution Z := MkDistribution [5%Z] [0%Z].
Definition three_targets : MarginalDistribution Z :=
  MkDistribution [1%Z; 2%Z; 3%Z] [0%Z; 0%Z; 0%Z].

(** Two objects of class [outer_product_model], one before and one after
    [fit]. *)
Definition unfit_model : RegressionModel Z Z () (list (string * Z)) :=
  new_RegressionModel outer_product_model ().
Definition fitted_model : RegressionModel Z Z () (list (string * Z)) :=
  MkRegressionModel outer_product_model () true.

(** One fold of a leave-one-out split of the rows [10; 20; 30]: row [0] is
    held out. *)
Definition first_fold : RegressionFold Z Z :=
  {| train_dataset :=
       MkRegressionDataset [20%Z; 30%Z] (MkDistribution [2%Z; 3%Z] [0%Z; 0%Z]) [];
     test_dataset :=
       MkRegressionDataset [10%Z] (MkDistribution [1%Z] [0%Z]) [];
     name := "0";
     test_indices := [0%Z] |}.

(** ** What the claims assume of an indexer and of the predictions *)

(** The groups of the indexer partition the rows [0 .. n-1]: listed group
    after group, the rows are [0 .. n-1] in some order, each once. *)
Definition partitions_rows (indexer : GroupIndexer) (n : nat) : Prop :=
  rows_written indexer ≡ₚ seq 0 n.

(** The mean vectors have the keys of the indexer, and the vector of a
    group has one entry for every row of the group. *)
Definition matching_means {scalar} (indexer : GroupIndexer)
    (means : list (string * VectorXd scalar)) : Prop :=
  length indexer = length means
  ∧ ∀ key idxs, (key, idxs) ∈ indexer →
      ∃ m, map_at means key = Ok m ∧ length m = length idxs.

(** The same for distributions, whose mean and covariance have the size
    of the group. *)
Definition matching_predictions {scalar C} `{!CovarianceType scalar C}
    (indexer : GroupIndexer) (preds : list (string * Distribution scalar C)) :
    Prop :=
  length indexer = length preds
  ∧ ∀ key idxs, (key, idxs) ∈ indexer →
      ∃ p, map_at preds key = Ok p ∧ size p = length idxs
           ∧ length (diagonal (covariance p)) = length idxs.

(** Every row [r] below [n] is assigned by exactly one step of the loop:
    step [j] of [rows_written], and no other. *)
Definition written_exactly_once (indexer : GroupIndexer) (n : nat) : Prop :=
  ∀ r, r < n →
    ∃ j, rows_written indexer !! j = Some r
         ∧ ∀ j', rows_written indexer !! j' = Some r → j' = j.

(** A three-fold indexer over five rows, with the predictions of its
    groups; the size of the dataset is the number of rows it lists. *)
Definition five_rows_indexer : GroupIndexer :=
  [("a", [3; 0]); ("b", [1]); ("c", [4; 2])].
Definition five_rows_means : list (string * VectorXd Z) :=
  [("a", [30%Z; 0%Z]); ("b", [10%Z]); ("c", [40%Z; 20%Z])].
Definition five_rows_joints : list (string * JointDistribution Z) :=
  [("a", MkDistribution [30%Z; 0%Z] [[9%Z; 7%Z]; [7%Z; 1%Z]]);
   ("b", MkDistribution [10%Z] [[2%Z]]);
   ("c", MkDistribution [40%Z; 20%Z] [[5%Z; 8%Z]; [8%Z; 3%Z]])].
Definition five_rows_marginals : list (string * MarginalDistribution Z) :=
  [("a", MkDistribution [30%Z; 0%Z] [9%Z; 1%Z]);
   ("b", MkDistribution [10%Z] [2%Z]);
   ("c", MkDistribution [40%Z; 20%Z] [5%Z; 3%Z])].
Definition listed_rows (indexer : GroupIndexer) : nat :=
  length (rows_written indexer).
Definition zero_filled (_ : string) (_ : nat) : Z := 0%Z.

(** The other two folds of the leave-one-out split of [10; 20; 30], and
    the three together. *)
Definition second_fold : RegressionFold Z Z :=
  {| train_dataset :=
       MkRegressionDataset [10%Z; 30%Z] (MkDistribution [1%Z; 3%Z] [0%Z; 0%Z]) [];
     test_dataset :=
       MkRegressionDataset [20%Z] (MkDistribution [2%Z] [0%Z]) [];
     name := "1";
     test_indices := [1%Z] |}.
Definition third_fold : RegressionFold Z Z :=
  {| train_dataset :=
       MkRegressionDataset [10%Z; 20%Z] (MkDistribution [1%Z; 2%Z] [0%Z; 0%Z]) [];
     test_dataset :=
       MkRegressionDataset [30%Z] (MkDistribution [3%Z] [0%Z]) [];
     name := "2";
     test_indices := [2%Z] |}.
Definition leave_one_out_folds : RegressionFolds Z Z string :=
  [("0", first_fold); ("1", second_fold); ("2", third_fold)].

(** A model whose fit is the list of the training features. *)
Definition remembering_fit (model : ()) (dataset : RegressionDataset Z Z) :
    outcome (fit_model.FitModel () (list Z)) :=
  Ok (fit_model.MkFitModel model (features dataset)).

(** Mean predictions for the three held-out rows, and a metric: the sum
    of the differences between predicted and observed means. *)
Definition held_out_means : list (string * VectorXd Z) :=
  [("0", [11%Z]); ("1", [19%Z]); ("2", [33%Z])].
Definition sum_of_errors (prediction : VectorXd Z)
    (truth : MarginalDistribution Z) : outcome Z :=
  Ok (foldr Z.add 0%Z (zip_with Z.sub prediction (mean truth))).

(** Two parameters with a positivity prior, both started at [1e-8]; the
    metric is the squared distance to [(1, 1)]; and an optimizer that
    evaluates a script of proposals, two of which leave the support, and
    returns the one of least objective among those that got a number, or
    the start vector when none did. *)
Definition positive_prior : Tune.Prior Q :=
  Tune.MkPrior (λ v, negb (Qle_bool v 0)) (λ _, 0%Q) false.
Definition boundary_params : Tune.ParameterStore Q :=
  [("sigma", Tune.MkParam (1 # 100000000)%Q (Some positive_prior));
   ("length_scale", Tune.MkParam (1 # 100000000)%Q (Some positive_prior))].
Definition scripted_proposals : list (list Q) :=
  [[1 # 100000000; 1 # 100000000]%Q; [-1 # 100000000; 1 # 100000000]%Q;
   [1; 1]%Q; [0; 2]%Q; [2; 1]%Q].
Definition squared_distance (ps : Tune.ParameterStore Q) :
    outcome (Tune.objective_value Q) :=
  Ok (Tune.Finite
        (foldr (λ np acc,
                  ((Tune.value np.2 - 1) * (Tune.value np.2 - 1) + acc)%Q)
               0%Q ps)).
Definition least_so_far (best : option (list Q * Q)) (x : list Q)
    (v : Tune.objective_value Q) : option (list Q * Q) :=
  match v with
  | Tune.NaN => best
  | Tune.Finite y =>
      match best with
      | Some (_, yb) => if Qle_bool yb y then best else Some (x, y)
      | None => Some (x, y)
      end
  end.
Fixpoint scripted_search (proposals : list (list Q))
    (f : list Q → outcome (Tune.objective_value Q))
    (best : option (list Q * Q)) (maxeval : nat) :
    outcome (option (list Q * Q)) :=
  match maxeval, proposals with
  | S n, x :: rest =>
      v ← f x; scripted_search rest f (least_so_far best x v) n
  | _, _ => Ok best
  end.
Definition scripted_optimizer
    (f : list Q → outcome (Tune.objective_value Q))
    (start : list Q) (maxeval : nat) : outcome (list Q) :=
  best ← scripted_search scripted_proposals f None maxeval;
  mret (match best with Some (x, _) => x | None => start end).
Definition scripted_tune (maxeval : nat) : outcome (Tune.ParameterStore Q) :=
  Tune.tune 0%Q Qplus Qminus (λ _ x, x) (λ _ x, x) squared_distance
    scripted_optimizer maxeval boundary_params.

(** ** [get_predict_types] and its three instances *)

(** [m.emplace(k, v)]: nothing happens when the key is there already.  The
    keys arrive in the iteration order of another [std::map], that is in
    increasing order, so a new key goes last. *)
Definition map_emplace {K V} `{EqDecision K} (k : K) (v : V)
    (m : list (K * V)) : list (K * V) :=
  if decide (k ∈ m.*1) then m else m ++ [(k, v)].

Section GetPredictTypes.
Context {scalar PredictionClass : Type}.
(** [Prediction::get<PredictType>()] is not part of the sources at hand:
    it is a parameter; it may abort, since it runs the model. *)
Context (get : ∀ fid, PredictionClass → outcome (PredictType scalar fid)).

Definition get_predict_types (fid : Fidelity)
    (prediction_classes : list (string * PredictionClass)) :
    outcome (list (string * PredictType scalar fid)) :=
  for_each (λ predictions pred,
              x ← get fid pred.2; mret (map_emplace pred.1 x predictions))
           prediction_classes [].

Definition get_means := get_predict_types MeanOnly.
Definition get_marginals := get_predict_types Marginal.
Definition get_joints := get_predict_types Joint.
End GetPredictTypes.

(** More instances: a prediction class that holds a mean vector and
    answers every fidelity from it; an indexer that lists row [3] twice
    and row [2] never; mean vectors with a key the indexer lacks. *)
Definition get_from_mean (fid : Fidelity) (p : VectorXd Z) :
    outcome (PredictType Z fid) :=
  match fid with
  | MeanOnly => Ok p
  | Marginal => Ok (MkDistribution p ((λ _, 1%Z) <$> p))
  | Joint => AssertionFailure
  end.
Definition overlapping_indexer : GroupIndexer :=
  [("a", [3; 0]); ("b", [1]); ("c", [4; 3])].
Definition misnamed_means : list (string * VectorXd Z) :=
  [("a", [30%Z; 0%Z]); ("b", [10%Z]); ("d", [40%Z; 20%Z])].
Definition two_held_out_means : list (string * VectorXd Z) :=
  [("0", [11%Z]); ("2", [33%Z])].

(** * Properties *)

(** ** The [io] monad *)

Lemma io_eta {A} (x : io A) : IO (stdout x) (result x) = x.
Proof. by destruct x. Qed.

Lemma io_bind_assert {A} (b : bool) (k : io A) :
  (io_assert b ≫= λ _, k) = if b then k else IO [] AssertionFailure.
Proof. destruct b; [apply io_eta | done]. Qed.

Lemma io_bind_ok_inv {A B} (x : io A) (f : A → io B) (b : B) :
  result (x ≫= f) = Ok b → ∃ a, result x = Ok a ∧ result (f a) = Ok b.
Proof.
  unfold mbind, io_mbind, io_bind.
  destruct (result x) as [a| | |]; try done. cbn. eauto.
Qed.

Lemma io_bind_ok {A B} (x : io A) (f : A → io B) (a : A) :
  result x = Ok a → (x ≫= f) = IO (stdout x ++ stdout (f a)) (result (f a)).
Proof. unfold mbind, io_mbind, io_bind. by intros ->. Qed.

Lemma outcome_bind_ok_inv {A B} (x : outcome A) (f : A → outcome B) (b : B) :
  x ≫= f = Ok b → ∃ a, x = Ok a ∧ f a = Ok b.
Proof. destruct x as [a| | |]; try done. cbn. eauto. Qed.

(** ** Conversions to [s32] *)

Lemma s32_of_small (n : nat) :
  (Z.of_nat n < 2 ^ 31)%Z → s32_of n = Z.of_nat n.
Proof.
  intros Hn. unfold s32_of.
  rewrite Z.mod_small by lia. lia.
Qed.

Lemma s32_of_inj_small (n m : nat) :
  (Z.of_nat n < 2 ^ 31)%Z → (Z.of_nat m < 2 ^ 31)%Z →
  s32_of n = s32_of m → n = m.
Proof.
  intros Hn Hm. rewrite !s32_of_small by done. lia.
Qed.

Lemma s32_eqb_true (n m : nat) : s32_eqb n m = true ↔ s32_of n = s32_of m.
Proof. unfold s32_eqb. apply bool_decide_eq_true. Qed.

Lemma s32_eqb_false (n m : nat) : s32_eqb n m = false ↔ s32_of n ≠ s32_of m.
Proof. unfold s32_eqb. apply bool_decide_eq_false. Qed.

Lemma s32_eqb_refl (n : nat) : s32_eqb n n = true.
Proof. by apply s32_eqb_true. Qed.

Lemma length_long_features : Z.of_nat (length long_features) = (2 ^ 32 + 1)%Z.
Proof.
  unfold long_features. rewrite length_replicate.
  apply Z2Nat.id. lia.
Qed.

(** [2^32 + 1] and [1] are the same [s32]. *)
Lemma s32_of_long_features : s32_of (length long_features) = s32_of 1.
Proof.
  unfold s32_of. rewrite length_long_features. reflexivity.
Qed.

(** ** [RegressionModel::fit] *)

Section FitProperties.
Context {scalar FeatureType Impl ParameterStore : Type}.
Implicit Types m : RegressionModel scalar FeatureType Impl ParameterStore.
Implicit Types fs : list FeatureType.
Implicit Types ts : MarginalDistribution scalar.

(** Both size checks in one test. *)
Lemma fit_unfold fs ts m :
  fit fs ts m =
  if bool_decide (0 < length fs)
     && s32_eqb (length fs) (size ts)
  then d ← fit_ (vptr m) fs ts (derived m);
       mret (MkRegressionModel (vptr m) d true)
  else IO [] AssertionFailure.
Proof.
  unfold fit. rewrite !io_bind_assert.
  by destruct (bool_decide (0 < length fs)).
Qed.

Lemma fit_rejects fs ts m :
  length fs = 0 ∨ s32_of (length fs) ≠ s32_of (size ts) →
  fit fs ts m = IO [] AssertionFailure.
Proof.
  intros H. rewrite fit_unfold.
  destruct H as [H|H].
  - rewrite bool_decide_eq_false_2 by lia. done.
  - apply s32_eqb_false in H. rewrite H. by rewrite andb_false_r.
Qed.

Lemma fit_accepts fs ts m :
  0 < length fs →
  s32_of (length fs) = s32_of (size ts) →
  fit fs ts m =
  d ← fit_ (vptr m) fs ts (derived m);
  mret (MkRegressionModel (vptr m) d true).
Proof.
  intros Hpos Heq. rewrite fit_unfold.
  rewrite bool_decide_eq_true_2 by done.
  apply s32_eqb_true in Heq. by rewrite Heq.
Qed.

Lemma fit_ok_inv fs ts m m' :
  result (fit fs ts m) = Ok m' →
  0 < length fs
  ∧ s32_of (length fs) = s32_of (size ts)
  ∧ result (fit_ (vptr m) fs ts (derived m)) = Ok (derived m')
  ∧ vptr m' = vptr m ∧ has_been_fit_ m' = true.
Proof.
  rewrite fit_unfold.
  destruct (bool_decide (0 < length fs)) eqn:Hpos; [|done].
  destruct (s32_eqb (length fs) (size ts)) eqn:Heq; [|done].
  apply bool_decide_eq_true in Hpos. apply s32_eqb_true in Heq.
  cbn. intros (d & Hd & [= <-])%io_bind_ok_inv. by rewrite Hd.
Qed.

(** No override of [has_been_fit()]: the flag is what it answers. *)
Lemma has_been_fit_inherited m :
  has_been_fit_override (vptr m) = None → has_been_fit m = has_been_fit_ m.
Proof. unfold has_been_fit. by intros ->. Qed.

(** What [fit] does, exactly.  It aborts on an empty feature sequence and
    on feature and target lengths that differ as [s32], hence on any two
    different lengths below [2^31].  On lengths that agree as [s32] it
    runs [fit_] and, when [fit_] returns, hands back the model with the
    member [has_been_fit_] set, which is what [has_been_fit()] answers
    unless the concrete model overrides it; nothing else of the model
    changes. *)
Lemma fit_checks_lengths_as_s32 fs ts m :
  (fs = [] → fit fs ts m = IO [] AssertionFailure)
  ∧ (s32_of (length fs) ≠ s32_of (size ts) →
     fit fs ts m = IO [] AssertionFailure)
  ∧ ((Z.of_nat (length fs) < 2 ^ 31)%Z →
     (Z.of_nat (size ts) < 2 ^ 31)%Z →
     length fs ≠ size ts →
     fit fs ts m = IO [] AssertionFailure)
  ∧ (fs ≠ [] → s32_of (length fs) = s32_of (size ts) →
     fit fs ts m =
     d ← fit_ (vptr m) fs ts (derived m);
     mret (MkRegressionModel (vptr m) d true))
  ∧ (∀ m', result (fit fs ts m) = Ok m' →
     has_been_fit_ m' = true ∧ vptr m' = vptr m
     ∧ result (fit_ (vptr m) fs ts (derived m)) = Ok (derived m')
     ∧ (has_been_fit_override (vptr m) = None → has_been_fit m' = true)).
Proof.
  split_and!.
  - intros ->. apply fit_rejects. by left.
  - intros H. apply fit_rejects. by right.
  - intros Hf Ht Hne. apply fit_rejects. right.
    intros Heq. by apply Hne, s32_of_inj_small.
  - intros Hne Heq. apply fit_accepts; [|done].
    destruct fs; [done|]. cbn. lia.
  - intros m' Hm'. apply fit_ok_inv in Hm' as (_ & _ & ? & Hv & ?).
    split_and!; try done.
    intros Hover. rewrite has_been_fit_inherited; [done|by rewrite Hv].
Qed.
End FitProperties.

Example fit_three_features :
  fit [10%Z; 20%Z; 30%Z] three_targets
      (new_RegressionModel outer_product_model ())
  = IO [] (Ok (MkRegressionModel outer_product_model () true)).
Proof. reflexivity. Qed.

(** C4, on the code.  The feature sequence has [2^32 + 1] elements, the
    targets have one: the lengths differ, both are [1] as [s32], the
    assertion passes, and [fit] returns with the model marked as fit
    where a precondition violation is due. *)
Lemma fit_accepts_congruent_lengths :
  length long_features ≠ size one_target
  ∧ fit long_features one_target (new_RegressionModel outer_product_model ())
    = IO [] (Ok (MkRegressionModel outer_product_model () true)).
Proof.
  split.
  - intros H. pose proof length_long_features as Hl.
    rewrite H in Hl. cbn in Hl. lia.
  - rewrite fit_accepts.
    + reflexivity.
    + pose proof length_long_features. lia.
    + apply s32_of_long_features.
Qed.

(** ** [RegressionModel::predict] *)

Section PredictProperties.
Context {scalar FeatureType Impl ParameterStore : Type}.
Implicit Types m : RegressionModel scalar FeatureType Impl ParameterStore.
Implicit Types c : ConcreteModel scalar FeatureType Impl ParameterStore.
Implicit Types fs : list FeatureType.

Lemma predict_unfit fid fs m :
  has_been_fit m = false → predict fid fs m = IO [] AssertionFailure.
Proof. intros Hm. unfold predict. by rewrite io_bind_assert, Hm. Qed.

Lemma predict_ok_inv fid fs m preds :
  result (predict fid fs m) = Ok preds →
  has_been_fit m = true
  ∧ result (predict_impl fid (vptr m) fs (derived m)) = Ok preds
  ∧ s32_of (predicted_size fid preds) = s32_of (length fs).
Proof.
  unfold predict. rewrite io_bind_assert.
  destruct (has_been_fit m); [|done].
  intros (p & Hp & H)%io_bind_ok_inv.
  rewrite io_bind_assert in H.
  destruct (s32_eqb _ _) eqn:Heq; [|done].
  apply s32_eqb_true in Heq. cbn in H. by simplify_eq.
Qed.

Lemma predict_fit fid fs m preds :
  has_been_fit m = true →
  result (predict_impl fid (vptr m) fs (derived m)) = Ok preds →
  predict fid fs m =
  IO (stdout (predict_impl fid (vptr m) fs (derived m)))
     (if s32_eqb (predicted_size fid preds) (length fs)
      then Ok preds else AssertionFailure).
Proof.
  intros Hm Hp. unfold predict. rewrite io_bind_assert, Hm.
  rewrite (io_bind_ok _ _ _ Hp), io_bind_assert.
  destruct (s32_eqb _ _); cbn; by rewrite app_nil_r.
Qed.

(** What [predict] does, exactly.  In every fidelity it aborts on a
    model that does not answer [has_been_fit()].  A prediction it returns
    is the one of the implementation, and its length agrees with the
    number of features as [s32], hence is that number when both are below
    [2^31]; an implementation result whose length differs as [s32] makes
    [predict] abort. *)
Lemma predict_checks_size_as_s32 fid fs m :
  (has_been_fit m = false → predict fid fs m = IO [] AssertionFailure)
  ∧ (∀ preds, result (predict fid fs m) = Ok preds →
       has_been_fit m = true
       ∧ result (predict_impl fid (vptr m) fs (derived m)) = Ok preds
       ∧ s32_of (predicted_size fid preds) = s32_of (length fs)
       ∧ ((Z.of_nat (predicted_size fid preds) < 2 ^ 31)%Z →
          (Z.of_nat (length fs) < 2 ^ 31)%Z →
          predicted_size fid preds = length fs))
  ∧ (∀ preds, has_been_fit m = true →
       result (predict_impl fid (vptr m) fs (derived m)) = Ok preds →
       s32_of (predicted_size fid preds) ≠ s32_of (length fs) →
       result (predict fid fs m) = AssertionFailure)
  ∧ (∀ preds, has_been_fit m = true →
       result (predict_impl fid (vptr m) fs (derived m)) = Ok preds →
       predicted_size fid preds = length fs →
       result (predict fid fs m) = Ok preds).
Proof.
  split_and!.
  - apply predict_unfit.
  - intros preds (Hm & Hp & Hs)%predict_ok_inv. split_and!; try done.
    intros. by apply s32_of_inj_small.
  - intros preds Hm Hp Hs. rewrite (predict_fit _ _ _ _ Hm Hp).
    apply s32_eqb_false in Hs. by rewrite Hs.
  - intros preds Hm Hp Hs. rewrite (predict_fit _ _ _ _ Hm Hp).
    by rewrite Hs, s32_eqb_refl.
Qed.

(** *** The defaults of [predict_marginal_] and [predict_mean_] *)

Lemma diagonal_from_lookup (M : MatrixXd scalar) (k i : nat) :
  i < length (diagonal_from k M) →
  diagonal_from k M !! i = M !! i ≫= (.!! (k + i)).
Proof.
  revert k i. induction M as [|row M IH]; intros k i Hi; [cbn in Hi; lia|].
  cbn in *. destruct (row !! k) as [x|] eqn:Hrow; [|cbn in Hi; lia].
  destruct i as [|i]; cbn.
  - by rewrite Nat.add_0_r.
  - cbn in Hi. rewrite IH by lia. by rewrite Nat.add_succ_r.
Qed.

Lemma diagonal_from_length (M : MatrixXd scalar) (k : nat) :
  length (diagonal_from k M) ≤ length M.
Proof.
  revert k. induction M as [|row M IH]; intros k; cbn; [done|].
  destruct (row !! k); cbn; [|lia]. specialize (IH (S k)). lia.
Qed.

(** On an [n] by [n] matrix the diagonal has [n] entries. *)
Lemma diagonal_from_square (M : MatrixXd scalar) (k : nat) :
  Forall (λ row, k + length M ≤ length row) M →
  length (diagonal_from k M) = length M.
Proof.
  revert k. induction M as [|row M IH]; intros k HM; cbn; [done|].
  inversion HM as [|?? Hrow HM']; subst. cbn in *.
  destruct (lookup_lt_is_Some_2 row k) as [x ->]; [lia|].
  cbn. f_equal. apply IH.
  eapply Forall_impl; [done|]. cbn. intros; lia.
Qed.

Lemma default_predict_marginal_joint c fs (d : Impl) joint :
  result (predict_ c fs d) = Ok joint →
  default_predict_marginal_ c fs d =
  IO (marginal_warning :: stdout (predict_ c fs d))
     (Ok (MkDistribution (mean joint) (diagonal (covariance joint)))).
Proof.
  intros Hj. unfold default_predict_marginal_.
  rewrite (io_bind_ok (cout _) _ ()) by done.
  rewrite (io_bind_ok _ _ _ Hj). cbn. by rewrite app_nil_r.
Qed.

Lemma default_predict_mean_joint c fs (d : Impl) joint :
  result (predict_ c fs d) = Ok joint →
  default_predict_mean_ c fs d =
  IO (mean_warning :: stdout (predict_ c fs d)) (Ok (mean joint)).
Proof.
  intros Hj. unfold default_predict_mean_.
  rewrite (io_bind_ok (cout _) _ ()) by done.
  rewrite (io_bind_ok _ _ _ Hj). cbn. by rewrite app_nil_r.
Qed.

Lemma predict_marginal_inherited c fs (d : Impl) :
  predict_marginal_override c = None →
  predict_marginal_ c fs d = default_predict_marginal_ c fs d.
Proof. unfold predict_marginal_. by intros ->. Qed.

Lemma predict_mean_inherited c fs (d : Impl) :
  predict_mean_override c = None →
  predict_mean_ c fs d = default_predict_mean_ c fs d.
Proof. unfold predict_mean_. by intros ->. Qed.

(** C3.  For a model that overrides neither [predict_marginal_] nor
    [predict_mean_], whenever the joint prediction of a feature sequence
    is [joint], the marginal prediction has the mean of [joint] and, entry
    by entry, the diagonal of its covariance as variance, and the mean
    prediction is the mean of [joint]; both in the implementation members
    and through [predict]. *)
Theorem marginal_is_diagonal_of_joint fs m joint :
  predict_marginal_override (vptr m) = None →
  predict_mean_override (vptr m) = None →
  result (predict Joint fs m) = Ok joint →
  (∃ marginal,
      result (predict_marginal_ (vptr m) fs (derived m)) = Ok marginal
      ∧ result (predict Marginal fs m) = Ok marginal
      ∧ mean marginal = mean joint
      ∧ covariance marginal = diagonal (covariance joint)
      ∧ ∀ i, i < length (covariance marginal) →
          covariance marginal !! i = covariance joint !! i ≫= (.!! i))
  ∧ result (predict_mean_ (vptr m) fs (derived m)) = Ok (mean joint)
  ∧ result (predict MeanOnly fs m) = Ok (mean joint).
Proof.
  intros Hmarg Hmean (Hm & Hj & Hs)%predict_ok_inv. cbn in Hj, Hs.
  pose proof (default_predict_marginal_joint _ _ _ _ Hj) as Hdm.
  pose proof (default_predict_mean_joint _ _ _ _ Hj) as Hdn.
  rewrite <- predict_marginal_inherited in Hdm by done.
  rewrite <- predict_mean_inherited in Hdn by done.
  apply s32_eqb_true in Hs.
  split; [eexists; split_and!|split].
  - by rewrite Hdm.
  - rewrite (predict_fit Marginal fs m
               (MkDistribution (mean joint) (diagonal (covariance joint))));
      [|done|by unfold predict_impl; rewrite Hdm].
    cbn. by rewrite Hs.
  - done.
  - done.
  - intros i Hi. cbn in *. unfold diagonal, dense_covariance in *.
    by rewrite diagonal_from_lookup.
  - by rewrite Hdn.
  - rewrite (predict_fit MeanOnly fs m (mean joint));
      [|done|by unfold predict_impl; rewrite Hdn].
    cbn. by rewrite Hs.
Qed.
End PredictProperties.

Example predict_two_features :
  result (predict Marginal [2%Z; 3%Z]
            (MkRegressionModel outer_product_model () true))
  = Ok (MkDistribution [2%Z; 3%Z] [4%Z; 9%Z])
  ∧ predict Marginal [2%Z; 3%Z] (new_RegressionModel outer_product_model ())
    = IO [] AssertionFailure.
Proof. split; reflexivity. Qed.

(** Whatever the features are, as long as their number is [1] as an
    [s32], the joint prediction of [one_element_model] goes through. *)
Lemma one_element_model_predict (fs : list Z) :
  s32_of (length fs) = s32_of 1 →
  predict Joint fs (MkRegressionModel one_element_model () true)
  = IO [] (Ok (MkDistribution [0%Z] [[1%Z]])).
Proof.
  intros Hs.
  rewrite (predict_fit Joint fs _ (MkDistribution [0%Z] [[1%Z]]))
    by reflexivity.
  cbn. symmetry in Hs. apply s32_eqb_true in Hs. by rewrite Hs.
Qed.

(** C5, on the code.  Asked for [2^32 + 1] features, the implementation
    hands back one element; both sizes are [1] as [s32], the assertion
    passes, and [predict] returns a prediction that has not the length of
    the feature sequence, where a length mismatch is to be fatal. *)
Lemma predict_accepts_congruent_lengths :
  predict Joint long_features (MkRegressionModel one_element_model () true)
  = IO [] (Ok (MkDistribution [0%Z] [[1%Z]]))
  ∧ predicted_size (scalar:=Z) Joint (MkDistribution [0%Z] [[1%Z]])
    ≠ length long_features.
Proof.
  split.
  - apply one_element_model_predict, s32_of_long_features.
  - intros H. pose proof length_long_features as Hl.
    rewrite <- H in Hl. cbn in Hl. lia.
Qed.

(** [marginal_is_diagonal_of_joint] on the features [2; 3]: the joint
    covariance is [[4; 6]; [6; 9]], the marginal variance [4; 9]. *)
Lemma marginal_is_diagonal_of_joint_witness :
  result (predict Joint [2%Z; 3%Z]
            (MkRegressionModel outer_product_model () true))
  = Ok (MkDistribution [2%Z; 3%Z] [[4%Z; 6%Z]; [6%Z; 9%Z]])
  ∧ result (predict Marginal [2%Z; 3%Z]
              (MkRegressionModel outer_product_model () true))
    = Ok (MkDistribution [2%Z; 3%Z] [4%Z; 9%Z])
  ∧ result (predict MeanOnly [2%Z; 3%Z]
              (MkRegressionModel outer_product_model () true))
    = Ok [2%Z; 3%Z].
Proof.
  assert (result (predict Joint [2%Z; 3%Z]
                    (MkRegressionModel outer_product_model () true))
          = Ok (MkDistribution [2%Z; 3%Z] [[4%Z; 6%Z]; [6%Z; 9%Z]])) as Hj
    by reflexivity.
  destruct (marginal_is_diagonal_of_joint [2%Z; 3%Z]
              (MkRegressionModel outer_product_model () true) _
              eq_refl eq_refl Hj)
    as ((marginal & _ & Hp & Hmean & Hcov & _) & _ & Hm).
  split; [exact Hj|]. split; [|exact Hm].
  rewrite Hp. f_equal. destruct marginal as [mu var]. cbn in *. by subst.
Defined.

(** ** [RegressionModel::operator==] *)

Section EqualityProperties.
Context {scalar FeatureType Impl ParameterStore : Type}.
Context (params_eqb : ParameterStore → ParameterStore → bool).
Implicit Types this other : RegressionModel scalar FeatureType Impl ParameterStore.

Lemma operator_eq_unfold this other :
  operator_eq params_eqb this other =
  if has_been_fit this then IO [] AssertionFailure
  else IO [] (Ok (String.eqb (get_name (vptr this) (derived this))
                             (get_name (vptr other) (derived other))
                  && params_eqb (get_params (vptr this) (derived this))
                                (get_params (vptr other) (derived other))
                  && negb (has_been_fit other))).
Proof.
  unfold operator_eq. rewrite io_bind_assert.
  destruct (has_been_fit this); [done|]. cbn.
  by destruct (has_been_fit other).
Qed.

(** C7, as the code has it.  The comparison aborts when the model it is
    called on has been fit, whatever the other one is.  When that model
    has not been fit the comparison returns, and returns [true] exactly
    when the names agree, the parameters agree and the other model has
    not been fit either; against a model that has been fit it returns
    [false]. *)
Theorem operator_eq_fails_on_fit_receiver this other :
  (has_been_fit this = true →
   operator_eq params_eqb this other = IO [] AssertionFailure)
  ∧ (has_been_fit this = false →
     ∃ b, operator_eq params_eqb this other = IO [] (Ok b)
          ∧ (b = true ↔
             get_name (vptr this) (derived this)
             = get_name (vptr other) (derived other)
             ∧ params_eqb (get_params (vptr this) (derived this))
                          (get_params (vptr other) (derived other)) = true
             ∧ has_been_fit this = has_been_fit other))
  ∧ (has_been_fit this = false → has_been_fit other = true →
     operator_eq params_eqb this other = IO [] (Ok false)).
Proof.
  rewrite operator_eq_unfold. split_and!.
  - by intros ->.
  - intros Hthis. rewrite Hthis. eexists. split; [done|].
    rewrite !andb_true_iff, String.eqb_eq, negb_true_iff.
    split; [intros [[? ?] ?]|intros (? & ? & ?)]; split_and!; congruence.
  - intros -> ->. by rewrite andb_false_r.
Qed.
End EqualityProperties.

(** [operator_eq_fails_on_fit_receiver] on two objects of one class: two
    unfit ones are equal, and a fit one cannot be asked. *)
Lemma operator_eq_fails_on_fit_receiver_witness :
  operator_eq int_params_eqb unfit_model unfit_model = IO [] (Ok true)
  ∧ operator_eq int_params_eqb fitted_model unfit_model
    = IO [] AssertionFailure.
Proof.
  pose proof (operator_eq_fails_on_fit_receiver int_params_eqb
                unfit_model unfit_model) as (_ & Hunfit & _).
  pose proof (operator_eq_fails_on_fit_receiver int_params_eqb
                fitted_model unfit_model) as (Hfit & _ & _).
  split; [|by apply Hfit].
  destruct (Hunfit eq_refl) as (b & -> & Hb).
  do 2 f_equal. apply Hb. done.
Defined.

(** C7 as stated fails on the code: the right-hand model has been fit, and
    the comparison is carried out all the same; it answers [false]. *)
Lemma operator_eq_defined_against_fit_model :
  has_been_fit fitted_model = true
  ∧ operator_eq int_params_eqb unfit_model fitted_model = IO [] (Ok false).
Proof. split; reflexivity. Qed.

(** ** [RegressionModel::fit_and_predict] *)

Section FitAndPredictProperties.
Context {scalar FeatureType Impl ParameterStore : Type}.
Implicit Types m : RegressionModel scalar FeatureType Impl ParameterStore.
Implicit Types fs : list FeatureType.

(** The three-argument [fit_and_predict] is [fit] followed by [predict]:
    same text printed, same abort, same prediction, same model after. *)
Lemma fit_and_predict_is_fit_then_predict fid fs ts fs' m :
  fit_and_predict fid fs ts fs' m = fit_then_predict fid fs ts fs' m.
Proof.
  unfold fit_and_predict, fit_then_predict.
  unfold mbind at 1, io_mbind, io_bind.
  destruct (result (fit fs ts m)) as [m'| | |]; try done.
  unfold mbind, io_mbind, io_bind.
  destruct (result (predict fid fs' m')); cbn; by rewrite ?app_nil_r.
Qed.

Lemma fit_and_predict_ok_inv fid fs ts fs' m m' preds :
  result (fit_and_predict fid fs ts fs' m) = Ok (m', preds) →
  result (fit fs ts m) = Ok m' ∧ result (predict fid fs' m') = Ok preds.
Proof.
  unfold fit_and_predict.
  intros (m1 & Hfit & H)%io_bind_ok_inv.
  apply io_bind_ok_inv in H as (p & Hp & H).
  cbn in H. by simplify_eq.
Qed.

(** The overload taking a fold names [fold.train] and [fold.test];
    [RegressionFold] declares neither, and no fold gets a prediction. *)
Lemma fit_and_predict_fold_ill_formed fid
    (fold : RegressionFold scalar FeatureType) m :
  fit_and_predict_fold fid fold m = IO [] (IllFormed "train").
Proof. reflexivity. Qed.
End FitAndPredictProperties.

(** C8, on the code.  On the fold [first_fold] the overload taking a fold
    delivers nothing, where [fit_and_predict] on the training features,
    training targets and test features of that fold fits the model and
    predicts the held-out row. *)
Theorem fit_and_predict_fold_delivers_nothing :
  fit_and_predict_fold Marginal first_fold unfit_model
  = IO [] (IllFormed "train")
  ∧ fit_and_predict Marginal (features (train_dataset first_fold))
      (targets (train_dataset first_fold))
      (features (test_dataset first_fold)) unfit_model
    = IO [marginal_warning]
         (Ok (fitted_model, MkDistribution [10%Z] [100%Z])).
Proof. split; reflexivity. Qed.

(** ** Reassembly: [set_subset] *)

Section SetSubsetProperties.
Context {scalar : Type}.
Implicit Types from to : VectorXd scalar.
Implicit Types indices : GroupIndices.

Lemma assign_coeff_ok_inv i x to to' :
  assign_coeff i x to = Ok to' → i < length to ∧ to' = <[i:=x]> to.
Proof. unfold assign_coeff. case_decide; naive_solver. Qed.

Lemma set_subset_ok_inv from indices to to' :
  set_subset from indices to = Ok to' →
  length to' = length to
  ∧ length indices ≤ length from
  ∧ Forall (λ i, i < length to) indices.
Proof.
  revert from to. induction indices as [|i indices IH]; intros from to.
  - cbn. intros [= ->]. split_and!; [done|lia|constructor].
  - destruct from as [|x from]; [done|]. cbn.
    intros (to1 & [Hi ->]%assign_coeff_ok_inv & Hrec)%outcome_bind_ok_inv.
    apply IH in Hrec as (Hlen & Hle & Hall).
    rewrite length_insert in Hlen, Hall.
    split_and!; [done|lia|by constructor].
Qed.

Lemma set_subset_ok from indices to :
  length indices ≤ length from →
  Forall (λ i, i < length to) indices →
  ∃ to', set_subset from indices to = Ok to'.
Proof.
  revert from to. induction indices as [|i indices IH]; intros from to Hle Hall.
  - by eexists.
  - destruct from as [|x from]; [cbn in Hle; lia|].
    inversion Hall as [|?? Hi Hall']; subst. cbn.
    unfold assign_coeff. rewrite decide_True by done. cbn.
    apply IH; [cbn in Hle; lia|]. by rewrite length_insert.
Qed.

(** Without Eigen's range assertions failing, [set_subset] cannot fail in
    any other way. *)
Lemma set_subset_ok_or_abort from indices to :
  is_ok (set_subset from indices to) = true
  ∨ set_subset from indices to = AssertionFailure.
Proof.
  revert from to. induction indices as [|i indices IH]; intros from to.
  - by left.
  - destruct from as [|x from]; [by right|]. cbn.
    unfold assign_coeff. case_decide; [|by right]. cbn. apply IH.
Qed.

(** A row that is not among the indices keeps its coefficient. *)
Lemma set_subset_untouched from indices to to' r :
  set_subset from indices to = Ok to' → r ∉ indices → to' !! r = to !! r.
Proof.
  revert from to. induction indices as [|i indices IH]; intros from to.
  - cbn. by intros [= ->].
  - destruct from as [|x from]; [done|]. cbn.
    intros (to1 & [Hi ->]%assign_coeff_ok_inv & Hrec)%outcome_bind_ok_inv Hr.
    apply not_elem_of_cons in Hr as [Hne Hr].
    rewrite (IH _ _ Hrec Hr). by apply list_lookup_insert_ne.
Qed.

(** A row that occurs once receives the entry at its position. *)
Lemma set_subset_written from indices to to' j r :
  set_subset from indices to = Ok to' → NoDup indices →
  indices !! j = Some r → to' !! r = from !! j.
Proof.
  revert from to j. induction indices as [|i indices IH]; intros from to j.
  - done.
  - destruct from as [|x from]; [done|]. cbn.
    intros (to1 & [Hi ->]%assign_coeff_ok_inv & Hrec)%outcome_bind_ok_inv Hnd Hj.
    apply NoDup_cons in Hnd as [Hni Hnd].
    destruct j as [|j]; cbn in *.
    + simplify_eq. rewrite (set_subset_untouched _ _ _ _ _ Hrec Hni).
      by apply list_lookup_insert_eq.
    + by eapply IH.
Qed.
End SetSubsetProperties.

(** ** Reassembly: the loops over the indexer *)

Section LoopProperties.
Context {scalar : Type}.
Implicit Types indexer : GroupIndexer.
Implicit Types means : list (string * VectorXd scalar).
Implicit Types pred : VectorXd scalar.

Lemma rows_written_cons key idxs indexer :
  rows_written ((key, idxs) :: indexer) = idxs ++ rows_written indexer.
Proof. reflexivity. Qed.

Lemma mean_loop_body_eq means pred k key idxs :
  mean_loop_body means (pred, k) (key, idxs) =
  m ← map_at means key;
  _ ← cpp_assert (bool_decide (length m = length idxs));
  pred' ← set_subset m idxs pred;
  mret (pred', k + length idxs).
Proof. reflexivity. Qed.

Lemma mean_loop_body_ok_inv means pred k key idxs pred' k' :
  mean_loop_body means (pred, k) (key, idxs) = Ok (pred', k') →
  ∃ m, map_at means key = Ok m ∧ length m = length idxs
       ∧ set_subset m idxs pred = Ok pred' ∧ k' = k + length idxs.
Proof.
  unfold mean_loop_body. cbn.
  intros (m & Hm & H)%outcome_bind_ok_inv.
  apply outcome_bind_ok_inv in H as ([] & Hlen & H).
  apply outcome_bind_ok_inv in H as (p & Hp & H).
  unfold cpp_assert in Hlen. case_bool_decide; [|done].
  injection H as <- <-. eauto.
Qed.

Lemma mean_loop_ok_inv means indexer pred k pred' k' :
  for_each (mean_loop_body means) indexer (pred, k) = Ok (pred', k') →
  k' = k + length (rows_written indexer)
  ∧ length pred' = length pred
  ∧ Forall (λ r, r < length pred) (rows_written indexer)
  ∧ (∀ r, r ∉ rows_written indexer → pred' !! r = pred !! r)
  ∧ (NoDup (rows_written indexer) →
     ∀ key idxs m j r,
       (key, idxs) ∈ indexer → map_at means key = Ok m →
       idxs !! j = Some r → pred' !! r = m !! j).
Proof.
  revert pred k. induction indexer as [|[key0 idxs0] indexer IH]; intros pred k.
  - cbn. intros [= <- <-]. split_and!; try done.
    intros _ ????? []%elem_of_nil.
  - cbn [for_each].
    intros ([pred1 k1] & Hbody & Hrest)%outcome_bind_ok_inv.
    apply mean_loop_body_ok_inv in Hbody as (m0 & Hm0 & Hlen0 & Hset & ->).
    apply IH in Hrest as (-> & Hlen & Hall & Hkeep & Hget).
    pose proof (set_subset_ok_inv _ _ _ _ Hset) as (Hlen1 & _ & Hall0).
    rewrite rows_written_cons. split_and!.
    + rewrite length_app. lia.
    + congruence.
    + apply Forall_app. split; [done|]. by rewrite <- Hlen1.
    + intros r [Hr0 Hr]%not_elem_of_app.
      rewrite Hkeep by done. by eapply set_subset_untouched.
    + intros [Hnd0 [Hdisj Hnd]]%NoDup_app key idxs m j r Hin Hm Hj.
      apply elem_of_cons in Hin as [[= -> ->]|Hin].
      * assert (r ∈ idxs0) as Hr by (by eapply list_elem_of_lookup_2).
        rewrite Hkeep by (by apply Hdisj).
        rewrite Hm0 in Hm. injection Hm as <-.
        by eapply set_subset_written.
      * by eapply Hget.
Qed.

Lemma mean_loop_ok means indexer pred k :
  (∀ key idxs, (key, idxs) ∈ indexer →
     ∃ m, map_at means key = Ok m ∧ length m = length idxs) →
  Forall (λ r, r < length pred) (rows_written indexer) →
  ∃ pred', for_each (mean_loop_body means) indexer (pred, k)
           = Ok (pred', k + length (rows_written indexer)).
Proof.
  revert pred k. induction indexer as [|[key0 idxs0] indexer IH];
    intros pred k Hkeys Hall.
  - eexists. cbn. by rewrite Nat.add_0_r.
  - rewrite rows_written_cons in *. apply Forall_app in Hall as [Hall0 Hall].
    destruct (Hkeys key0 idxs0) as (m0 & Hm0 & Hlen0); [left|].
    destruct (set_subset_ok m0 idxs0 pred) as [pred1 Hset]; [lia|done|].
    pose proof (set_subset_ok_inv _ _ _ _ Hset) as (Hlen1 & _ & _).
    destruct (IH pred1 (k + length idxs0)) as [pred' Hrest].
    { intros ?? Hin. apply Hkeys. by right. }
    { by rewrite Hlen1. }
    exists pred'. cbn [for_each]. rewrite mean_loop_body_eq, Hm0.
    cbn [mbind outcome_mbind outcome_bind].
    rewrite bool_decide_eq_true_2 by done.
    cbn [mbind outcome_mbind outcome_bind cpp_assert]. rewrite Hset.
    cbn [mbind outcome_mbind outcome_bind mret outcome_mret].
    rewrite Hrest, length_app. do 2 f_equal. lia.
Qed.

(** With every key of the indexer present, the loop ends or an assertion
    fails; nothing else can happen. *)
Lemma mean_loop_ok_or_abort means indexer pred k :
  (∀ key idxs, (key, idxs) ∈ indexer → is_ok (map_at means key) = true) →
  is_ok (for_each (mean_loop_body means) indexer (pred, k)) = true
  ∨ for_each (mean_loop_body means) indexer (pred, k) = AssertionFailure.
Proof.
  revert pred k. induction indexer as [|[key0 idxs0] indexer IH];
    intros pred k Hkeys; [by left|].
  cbn [for_each]. rewrite mean_loop_body_eq.
  specialize (Hkeys key0 idxs0 ltac:(left)) as Hk0.
  destruct (map_at means key0) as [m0| | |]; try done.
  cbn [mbind outcome_mbind outcome_bind].
  case_bool_decide; [|by right].
  cbn [mbind outcome_mbind outcome_bind cpp_assert].
  destruct (set_subset_ok_or_abort m0 idxs0 pred) as [Hok| ->]; [|by right].
  destruct (set_subset m0 idxs0 pred) as [pred1| | |]; try done.
  cbn [mbind outcome_mbind outcome_bind mret outcome_mret].
  apply IH. intros key idxs Hin. apply (Hkeys key idxs). by right.
Qed.
End LoopProperties.

Section MarginalLoopProperties.
Context {scalar C : Type} `{!CovarianceType scalar C}.
Implicit Types indexer : GroupIndexer.
Implicit Types preds : list (string * Distribution scalar C).
Implicit Types mu var : VectorXd scalar.

Lemma marginal_loop_body_eq preds mu var k key idxs :
  marginal_loop_body preds (mu, var, k) (key, idxs) =
  p ← map_at preds key;
  _ ← cpp_assert (bool_decide (size p = length idxs));
  mu' ← set_subset (mean p) idxs mu;
  var' ← set_subset (diagonal (covariance p)) idxs var;
  mret (mu', var', k + length idxs).
Proof. reflexivity. Qed.

Lemma marginal_loop_body_ok_inv preds mu var k key idxs mu' var' k' :
  marginal_loop_body preds (mu, var, k) (key, idxs) = Ok (mu', var', k') →
  ∃ p, map_at preds key = Ok p ∧ size p = length idxs
       ∧ set_subset (mean p) idxs mu = Ok mu'
       ∧ set_subset (diagonal (covariance p)) idxs var = Ok var'
       ∧ k' = k + length idxs.
Proof.
  rewrite marginal_loop_body_eq.
  intros (p & Hp & H)%outcome_bind_ok_inv.
  apply outcome_bind_ok_inv in H as ([] & Hlen & H).
  apply outcome_bind_ok_inv in H as (mu1 & Hmu & H).
  apply outcome_bind_ok_inv in H as (var1 & Hvar & H).
  unfold cpp_assert in Hlen. case_bool_decide; [|done].
  injection H as <- <- <-. eauto 10.
Qed.

Lemma marginal_loop_ok_inv preds indexer mu var k mu' var' k' :
  for_each (marginal_loop_body preds) indexer (mu, var, k)
  = Ok (mu', var', k') →
  k' = k + length (rows_written indexer)
  ∧ length mu' = length mu ∧ length var' = length var
  ∧ (∀ r, r ∉ rows_written indexer →
       mu' !! r = mu !! r ∧ var' !! r = var !! r)
  ∧ (NoDup (rows_written indexer) →
     ∀ key idxs p j r,
       (key, idxs) ∈ indexer → map_at preds key = Ok p →
       idxs !! j = Some r →
       mu' !! r = mean p !! j
       ∧ var' !! r = diagonal (covariance p) !! j).
Proof.
  revert mu var k.
  induction indexer as [|[key0 idxs0] indexer IH]; intros mu var k.
  - cbn. intros [= <- <- <-]. split_and!; try done.
    intros _ ????? []%elem_of_nil.
  - cbn [for_each].
    intros ([[mu1 var1] k1] & Hbody & Hrest)%outcome_bind_ok_inv.
    apply marginal_loop_body_ok_inv in Hbody
      as (p0 & Hp0 & Hlen0 & Hmu & Hvar & ->).
    apply IH in Hrest as (-> & Hlmu & Hlvar & Hkeep & Hget).
    pose proof (set_subset_ok_inv _ _ _ _ Hmu) as (Hlmu1 & _ & _).
    pose proof (set_subset_ok_inv _ _ _ _ Hvar) as (Hlvar1 & _ & _).
    rewrite rows_written_cons. split_and!.
    + rewrite length_app. lia.
    + congruence.
    + congruence.
    + intros r [Hr0 Hr]%not_elem_of_app.
      destruct (Hkeep r Hr) as [-> ->].
      split; by eapply set_subset_untouched.
    + intros [Hnd0 [Hdisj Hnd]]%NoDup_app key idxs p j r Hin Hp Hj.
      apply elem_of_cons in Hin as [[= -> ->]|Hin].
      * assert (r ∈ idxs0) as Hr by (by eapply list_elem_of_lookup_2).
        destruct (Hkeep r (Hdisj r Hr)) as [-> ->].
        rewrite Hp0 in Hp. injection Hp as <-.
        split; by eapply set_subset_written.
      * by eapply Hget.
Qed.

Lemma marginal_loop_ok preds indexer mu var k :
  (∀ key idxs, (key, idxs) ∈ indexer →
     ∃ p, map_at preds key = Ok p ∧ size p = length idxs
          ∧ length idxs ≤ length (diagonal (covariance p))) →
  Forall (λ r, r < length mu) (rows_written indexer) →
  Forall (λ r, r < length var) (rows_written indexer) →
  ∃ mu' var', for_each (marginal_loop_body preds) indexer (mu, var, k)
              = Ok (mu', var', k + length (rows_written indexer)).
Proof.
  revert mu var k. induction indexer as [|[key0 idxs0] indexer IH];
    intros mu var k Hkeys Hmu Hvar.
  - do 2 eexists. cbn. by rewrite Nat.add_0_r.
  - rewrite rows_written_cons in *.
    apply Forall_app in Hmu as [Hmu0 Hmu].
    apply Forall_app in Hvar as [Hvar0 Hvar].
    destruct (Hkeys key0 idxs0) as (p0 & Hp0 & Hlen0 & Hdiag0); [left|].
    destruct (set_subset_ok (mean p0) idxs0 mu) as [mu1 Hset1];
      [unfold size in Hlen0; lia|done|].
    destruct (set_subset_ok (diagonal (covariance p0)) idxs0 var)
      as [var1 Hset2]; [done..|].
    pose proof (set_subset_ok_inv _ _ _ _ Hset1) as (Hl1 & _ & _).
    pose proof (set_subset_ok_inv _ _ _ _ Hset2) as (Hl2 & _ & _).
    destruct (IH mu1 var1 (k + length idxs0)) as (mu' & var' & Hrest).
    { intros key idxs Hin. apply (Hkeys key idxs). by right. }
    { by rewrite Hl1. }
    { by rewrite Hl2. }
    exists mu', var'. cbn [for_each]. rewrite marginal_loop_body_eq, Hp0.
    cbn [mbind outcome_mbind outcome_bind].
    rewrite bool_decide_eq_true_2 by done.
    cbn [mbind outcome_mbind outcome_bind cpp_assert]. rewrite Hset1.
    cbn [mbind outcome_mbind outcome_bind]. rewrite Hset2.
    cbn [mbind outcome_mbind outcome_bind mret outcome_mret].
    rewrite Hrest, length_app. do 2 f_equal. lia.
Qed.

Lemma marginal_loop_ok_or_abort preds indexer mu var k :
  (∀ key idxs, (key, idxs) ∈ indexer → is_ok (map_at preds key) = true) →
  is_ok (for_each (marginal_loop_body preds) indexer (mu, var, k)) = true
  ∨ for_each (marginal_loop_body preds) indexer (mu, var, k)
    = AssertionFailure.
Proof.
  revert mu var k. induction indexer as [|[key0 idxs0] indexer IH];
    intros mu var k Hkeys; [by left|].
  cbn [for_each]. rewrite marginal_loop_body_eq.
  specialize (Hkeys key0 idxs0 ltac:(left)) as Hk0.
  destruct (map_at preds key0) as [p0| | |]; try done.
  cbn [mbind outcome_mbind outcome_bind].
  case_bool_decide; [|by right].
  cbn [mbind outcome_mbind outcome_bind cpp_assert].
  destruct (set_subset_ok_or_abort (mean p0) idxs0 mu) as [Hok| ->];
    [|by right].
  destruct (set_subset (mean p0) idxs0 mu) as [mu1| | |]; try done.
  cbn [mbind outcome_mbind outcome_bind].
  destruct (set_subset_ok_or_abort (diagonal (covariance p0)) idxs0 var)
    as [Hok'| ->]; [|by right].
  destruct (set_subset (diagonal (covariance p0)) idxs0 var)
    as [var1| | |]; try done.
  cbn [mbind outcome_mbind outcome_bind mret outcome_mret].
  apply IH. intros key idxs Hin. apply (Hkeys key idxs). by right.
Qed.
End MarginalLoopProperties.

(** ** Reassembly: [concatenate_mean_predictions] and
    [concatenate_marginal_predictions] *)

Lemma partitions_rows_facts (indexer : GroupIndexer) (n : nat) :
  partitions_rows indexer n →
  NoDup (rows_written indexer)
  ∧ length (rows_written indexer) = n
  ∧ Forall (λ r, r < n) (rows_written indexer)
  ∧ written_exactly_once indexer n.
Proof.
  unfold partitions_rows. intros Hperm. split_and!.
  - rewrite Hperm. apply NoDup_seq.
  - by rewrite Hperm, length_seq.
  - rewrite Hperm. apply Forall_forall. intros r Hr%elem_of_seq. lia.
  - intros r Hr.
    assert (r ∈ rows_written indexer) as [j Hj]%list_elem_of_lookup_1.
    { rewrite Hperm. apply elem_of_seq. lia. }
    exists j. split; [done|]. intros j' Hj'.
    eapply NoDup_lookup; [|done..]. rewrite Hperm. apply NoDup_seq.
Qed.

Section ReassemblyProperties.
Context {scalar : Type}.
Context (dataset_size_from_indexer : GroupIndexer → nat).
Context (uninitialized : string → nat → scalar).
Implicit Types indexer : GroupIndexer.
Implicit Types means : list (string * VectorXd scalar).

Local Abbreviation concatenate_mean :=
  (concatenate_mean_predictions dataset_size_from_indexer uninitialized).
Local Abbreviation concatenate_marginal :=
  (concatenate_marginal_predictions dataset_size_from_indexer uninitialized).

Lemma VectorXd_new_length v n : length (VectorXd_new uninitialized v n) = n.
Proof. unfold VectorXd_new. by rewrite length_fmap, length_seq. Qed.

Lemma concatenate_mean_eq indexer means :
  concatenate_mean indexer means =
  _ ← cpp_assert (bool_decide (length indexer = length means));
  st ← for_each (mean_loop_body means) indexer
         (VectorXd_new uninitialized "pred" (dataset_size_from_indexer indexer), 0);
  _ ← cpp_assert (bool_decide (st.2 = dataset_size_from_indexer indexer));
  mret st.1.
Proof. reflexivity. Qed.

(** What a returned vector tells: the sizes agreed, the number of rows
    assigned is the size of the dataset, rows never assigned hold what the
    fresh vector held, and, when no row is assigned twice, every assigned
    row holds the entry of its group. *)
Lemma concatenate_mean_ok_inv indexer means pred :
  concatenate_mean indexer means = Ok pred →
  let n := dataset_size_from_indexer indexer in
  length indexer = length means
  ∧ length (rows_written indexer) = n
  ∧ length pred = n
  ∧ (∀ r, r ∉ rows_written indexer →
       pred !! r = VectorXd_new uninitialized "pred" n !! r)
  ∧ (NoDup (rows_written indexer) →
     ∀ key idxs m j r,
       (key, idxs) ∈ indexer → map_at means key = Ok m →
       idxs !! j = Some r → pred !! r = m !! j).
Proof.
  rewrite concatenate_mean_eq.
  intros ([] & Hsz & H)%outcome_bind_ok_inv.
  apply outcome_bind_ok_inv in H as ([pred' k'] & Hloop & H).
  apply outcome_bind_ok_inv in H as ([] & Hfilled & H).
  injection H as <-.
  unfold cpp_assert in Hsz, Hfilled.
  case_bool_decide; [|done]. case_bool_decide as Hk; [|done].
  cbn [fst snd] in *.
  apply mean_loop_ok_inv in Hloop as (-> & Hlen & _ & Hkeep & Hget).
  rewrite VectorXd_new_length in Hlen.
  split_and!; try done; lia.
Qed.

Lemma concatenate_mean_partition indexer means :
  let n := dataset_size_from_indexer indexer in
  matching_means indexer means → partitions_rows indexer n →
  ∃ pred, concatenate_mean indexer means = Ok pred
          ∧ length pred = n
          ∧ ∀ key idxs m j r,
              (key, idxs) ∈ indexer → map_at means key = Ok m →
              idxs !! j = Some r → pred !! r = m !! j.
Proof.
  intros n [Hsz Hkeys] (Hnd & Hlen & Hall & _)%partitions_rows_facts.
  destruct (mean_loop_ok means indexer (VectorXd_new uninitialized "pred" n) 0)
    as [pred Hloop]; [done|by rewrite VectorXd_new_length|].
  assert (concatenate_mean indexer means = Ok pred) as Hok.
  { rewrite concatenate_mean_eq, bool_decide_eq_true_2 by done.
    cbn [mbind outcome_mbind outcome_bind cpp_assert].
    fold n. rewrite Hloop.
    cbn [mbind outcome_mbind outcome_bind fst snd].
    by rewrite bool_decide_eq_true_2 by (fold n; lia). }
  exists pred. split; [done|].
  apply concatenate_mean_ok_inv in Hok as (_ & _ & Hl & _ & Hget).
  split; [done|]. by apply Hget.
Qed.

Lemma concatenate_mean_count_mismatch indexer means :
  matching_means indexer means →
  length (rows_written indexer) ≠ dataset_size_from_indexer indexer →
  concatenate_mean indexer means = AssertionFailure.
Proof.
  intros [Hsz Hkeys] Hne.
  destruct (concatenate_mean indexer means) as [pred| | |] eqn:Hc; [|done|..].
  - apply concatenate_mean_ok_inv in Hc as (_ & Hlen & _). done.
  - exfalso. revert Hc.
    rewrite concatenate_mean_eq, bool_decide_eq_true_2 by done.
    cbn [mbind outcome_mbind outcome_bind cpp_assert].
    destruct (mean_loop_ok_or_abort means indexer
                (VectorXd_new uninitialized "pred" (dataset_size_from_indexer indexer)) 0)
      as [Hok| ->]; [| |done].
    { intros key idxs Hin. by destruct (Hkeys key idxs Hin) as (m & -> & _). }
    destruct (for_each _ _ _) as [st| | |]; try done.
    cbn [mbind outcome_mbind outcome_bind]. by case_bool_decide.
  - exfalso. revert Hc.
    rewrite concatenate_mean_eq, bool_decide_eq_true_2 by done.
    cbn [mbind outcome_mbind outcome_bind cpp_assert].
    destruct (mean_loop_ok_or_abort means indexer
                (VectorXd_new uninitialized "pred" (dataset_size_from_indexer indexer)) 0)
      as [Hok| ->]; [| |done].
    { intros key idxs Hin. by destruct (Hkeys key idxs Hin) as (m & -> & _). }
    destruct (for_each _ _ _) as [st| | |]; try done.
    cbn [mbind outcome_mbind outcome_bind]. by case_bool_decide.
Qed.
End ReassemblyProperties.

Section MarginalReassemblyProperties.
Context {scalar : Type}.
Context (dataset_size_from_indexer : GroupIndexer → nat).
Context (uninitialized : string → nat → scalar).
Implicit Types indexer : GroupIndexer.

Local Abbreviation concatenate_mean :=
  (concatenate_mean_predictions dataset_size_from_indexer uninitialized).
Local Abbreviation concatenate_marginal :=
  (concatenate_marginal_predictions dataset_size_from_indexer uninitialized).

Section AnyCovariance.
Context {C : Type} `{!CovarianceType scalar C}.
Implicit Types preds : list (string * Distribution scalar C).

Lemma concatenate_marginal_eq indexer preds :
  concatenate_marginal indexer preds =
  _ ← cpp_assert (bool_decide (length indexer = length preds));
  st ← for_each (marginal_loop_body preds) indexer
         (VectorXd_new uninitialized "mean" (dataset_size_from_indexer indexer),
          VectorXd_new uninitialized "variance" (dataset_size_from_indexer indexer), 0);
  _ ← cpp_assert (bool_decide (st.2 = dataset_size_from_indexer indexer));
  mret (MkDistribution st.1.1 (asDiagonal st.1.2)).
Proof. reflexivity. Qed.

Lemma concatenate_marginal_ok_inv indexer preds marginal :
  concatenate_marginal indexer preds = Ok marginal →
  let n := dataset_size_from_indexer indexer in
  length indexer = length preds
  ∧ length (rows_written indexer) = n
  ∧ size marginal = n ∧ length (covariance marginal) = n
  ∧ (∀ r, r ∉ rows_written indexer →
       mean marginal !! r = VectorXd_new uninitialized "mean" n !! r
       ∧ covariance marginal !! r = VectorXd_new uninitialized "variance" n !! r)
  ∧ (NoDup (rows_written indexer) →
     ∀ key idxs p j r,
       (key, idxs) ∈ indexer → map_at preds key = Ok p →
       idxs !! j = Some r →
       mean marginal !! r = mean p !! j
       ∧ covariance marginal !! r = diagonal (covariance p) !! j).
Proof.
  rewrite concatenate_marginal_eq.
  intros ([] & Hsz & H)%outcome_bind_ok_inv.
  apply outcome_bind_ok_inv in H as ([[mu var] k'] & Hloop & H).
  apply outcome_bind_ok_inv in H as ([] & Hfilled & H).
  injection H as <-.
  unfold cpp_assert in Hsz, Hfilled.
  case_bool_decide; [|done]. case_bool_decide as Hk; [|done].
  cbn [fst snd] in *.
  apply marginal_loop_ok_inv in Hloop as (-> & Hlmu & Hlvar & Hkeep & Hget).
  rewrite VectorXd_new_length in Hlmu, Hlvar.
  unfold size, asDiagonal. cbn [mean covariance].
  split_and!; try done; lia.
Qed.

Lemma concatenate_marginal_partition indexer preds :
  let n := dataset_size_from_indexer indexer in
  matching_predictions indexer preds → partitions_rows indexer n →
  ∃ marginal,
    concatenate_marginal indexer preds = Ok marginal
    ∧ size marginal = n ∧ length (covariance marginal) = n
    ∧ ∀ key idxs p j r,
        (key, idxs) ∈ indexer → map_at preds key = Ok p →
        idxs !! j = Some r →
        mean marginal !! r = mean p !! j
        ∧ covariance marginal !! r = diagonal (covariance p) !! j.
Proof.
  intros n [Hsz Hkeys] (Hnd & Hlen & Hall & _)%partitions_rows_facts.
  destruct (marginal_loop_ok preds indexer (VectorXd_new uninitialized "mean" n)
              (VectorXd_new uninitialized "variance" n) 0)
    as (mu & var & Hloop); [|by rewrite VectorXd_new_length..|].
  { intros key idxs Hin.
    destruct (Hkeys key idxs Hin) as (p & ? & ? & ?). exists p.
    split_and!; [done..|lia]. }
  assert (concatenate_marginal indexer preds
          = Ok (MkDistribution mu (asDiagonal var))) as Hok.
  { rewrite concatenate_marginal_eq, bool_decide_eq_true_2 by done.
    cbn [mbind outcome_mbind outcome_bind cpp_assert].
    fold n. rewrite Hloop.
    cbn [mbind outcome_mbind outcome_bind fst snd].
    by rewrite bool_decide_eq_true_2 by (fold n; lia). }
  eexists. split; [done|].
  apply concatenate_marginal_ok_inv in Hok as (_ & _ & ? & ? & _ & Hget).
  split_and!; [done..|]. by apply Hget.
Qed.

Lemma concatenate_marginal_count_mismatch indexer preds :
  matching_predictions indexer preds →
  length (rows_written indexer) ≠ dataset_size_from_indexer indexer →
  concatenate_marginal indexer preds = AssertionFailure.
Proof.
  intros [Hsz Hkeys] Hne.
  destruct (concatenate_marginal indexer preds) as [marginal| | |] eqn:Hc.
  { apply concatenate_marginal_ok_inv in Hc as (_ & Hlen & _). done. }
  { done. }
  all: exfalso; revert Hc.
  all: rewrite concatenate_marginal_eq, bool_decide_eq_true_2 by done.
  all: cbn [mbind outcome_mbind outcome_bind cpp_assert].
  all: destruct (marginal_loop_ok_or_abort preds indexer
         (VectorXd_new uninitialized "mean" (dataset_size_from_indexer indexer))
         (VectorXd_new uninitialized "variance" (dataset_size_from_indexer indexer)) 0)
      as [Hok| ->]; [| |done].
  all: try (intros key idxs Hin;
            by destruct (Hkeys key idxs Hin) as (p & -> & _)).
  all: destruct (for_each _ _ _) as [st| | |]; try done.
  all: cbn [mbind outcome_mbind outcome_bind]; by case_bool_decide.
Qed.

(** C2.  Let the mean vectors and the distributions match the indexer key
    by key and length by length.  When the groups of the indexer partition
    the rows of the dataset, every row is assigned by exactly one step,
    the number of assignments is the size of the dataset, both
    reassemblies return, and at every row the result holds the entry its
    group's prediction has for that row.  When the number of rows listed
    is not the size of the dataset, both reassemblies abort. *)
Theorem reassembly_writes_every_row_once indexer
    (means : list (string * VectorXd scalar)) preds :
  let n := dataset_size_from_indexer indexer in
  matching_means indexer means →
  matching_predictions indexer preds →
  (partitions_rows indexer n →
   written_exactly_once indexer n
   ∧ length (rows_written indexer) = n
   ∧ (∃ pred,
        concatenate_mean indexer means = Ok pred
        ∧ length pred = n
        ∧ ∀ key idxs m j r,
            (key, idxs) ∈ indexer → map_at means key = Ok m →
            idxs !! j = Some r → pred !! r = m !! j)
   ∧ (∃ marginal,
        concatenate_marginal indexer preds = Ok marginal
        ∧ size marginal = n
        ∧ ∀ key idxs p j r,
            (key, idxs) ∈ indexer → map_at preds key = Ok p →
            idxs !! j = Some r →
            mean marginal !! r = mean p !! j
            ∧ covariance marginal !! r = diagonal (covariance p) !! j))
  ∧ (length (rows_written indexer) ≠ n →
     concatenate_mean indexer means = AssertionFailure
     ∧ concatenate_marginal indexer preds = AssertionFailure).
Proof.
  intros n Hmeans Hpreds. split.
  - intros Hpart.
    pose proof (partitions_rows_facts _ _ Hpart) as (_ & Hlen & _ & Honce).
    split_and!; [done..| |].
    + by apply concatenate_mean_partition.
    + destruct (concatenate_marginal_partition indexer preds Hpreds Hpart)
        as (marginal & ? & ? & ? & ?).
      by exists marginal.
  - intros Hne. split.
    + by apply concatenate_mean_count_mismatch.
    + by apply concatenate_marginal_count_mismatch.
Qed.
End AnyCovariance.

Lemma diagonal_coeff_off_diagonal (zero : scalar)
    (d : DiagonalMatrixXd scalar) (r r' : nat) :
  r < length d → r' < length d → r ≠ r' →
  diagonal_coeff zero d r r' = Some zero.
Proof.
  intros Hr Hr' Hne. unfold diagonal_coeff.
  rewrite decide_False by done. by rewrite decide_True.
Qed.

(** C9.  Whether the groups were predicted as joint or as marginal
    distributions, over an indexer that partitions the rows the
    reassembled distribution is a marginal one: its variance at a row is
    the diagonal entry its group's covariance has for that row, and read
    as a full matrix its covariance is zero off the diagonal, between
    rows of different groups as between rows of one group. *)
Theorem marginal_reassembly_keeps_diagonal_only indexer (zero : scalar)
    (joints : list (string * JointDistribution scalar))
    (marginals : list (string * MarginalDistribution scalar)) :
  let n := dataset_size_from_indexer indexer in
  partitions_rows indexer n →
  (matching_predictions indexer joints →
   ∃ marginal : MarginalDistribution scalar,
     concatenate_marginal indexer joints = Ok marginal
     ∧ length (covariance marginal) = n
     ∧ (∀ key idxs p j r,
          (key, idxs) ∈ indexer → map_at joints key = Ok p →
          idxs !! j = Some r →
          covariance marginal !! r = covariance p !! j ≫= (.!! j))
     ∧ (∀ r r', r < n → r' < n → r ≠ r' →
          diagonal_coeff zero (covariance marginal) r r' = Some zero))
  ∧ (matching_predictions indexer marginals →
     ∃ marginal : MarginalDistribution scalar,
       concatenate_marginal indexer marginals = Ok marginal
       ∧ length (covariance marginal) = n
       ∧ (∀ key idxs p j r,
            (key, idxs) ∈ indexer → map_at marginals key = Ok p →
            idxs !! j = Some r →
            covariance marginal !! r = covariance p !! j)
       ∧ (∀ r r', r < n → r' < n → r ≠ r' →
            diagonal_coeff zero (covariance marginal) r r' = Some zero)).
Proof.
  intros n Hpart. split; intros Hmatch.
  - destruct (concatenate_marginal_partition indexer joints Hmatch Hpart)
      as (marginal & Hok & _ & Hlen & Hget).
    exists marginal. split_and!; [done..| |].
    + intros key idxs p j r Hin Hp Hj.
      destruct (Hget key idxs p j r Hin Hp Hj) as [_ ->].
      destruct Hmatch as [_ Hkeys].
      destruct (Hkeys key idxs Hin) as (p' & Hp' & _ & Hdiag).
      pose proof (eq_trans (eq_sym Hp') Hp) as [= ->].
      unfold diagonal, dense_covariance in *.
      rewrite diagonal_from_lookup; [done|].
      rewrite Hdiag. by eapply lookup_lt_Some.
    + intros r r' Hr Hr' Hne. fold n in Hlen.
      apply diagonal_coeff_off_diagonal; [lia..|done].
  - destruct (concatenate_marginal_partition indexer marginals Hmatch Hpart)
      as (marginal & Hok & _ & Hlen & Hget).
    exists marginal. split_and!; [done..| |].
    + intros key idxs p j r Hin Hp Hj.
      by destruct (Hget key idxs p j r Hin Hp Hj) as [_ ->].
    + intros r r' Hr Hr' Hne. fold n in Hlen.
      apply diagonal_coeff_off_diagonal; [lia..|done].
Qed.
End MarginalReassemblyProperties.

(** *** The five-row example *)

Ltac each_group Hin :=
  repeat (apply elem_of_cons in Hin as [[= -> ->]|Hin]);
  [..|by apply elem_of_nil in Hin].

Lemma five_rows_partition :
  partitions_rows five_rows_indexer (listed_rows five_rows_indexer).
Proof. unfold partitions_rows. cbn. solve_Permutation. Qed.

Lemma five_rows_matching_means :
  matching_means five_rows_indexer five_rows_means.
Proof.
  split; [reflexivity|]. intros key idxs Hin.
  each_group Hin; by eexists.
Qed.

Lemma five_rows_matching_joints :
  matching_predictions five_rows_indexer five_rows_joints.
Proof.
  split; [reflexivity|]. intros key idxs Hin.
  each_group Hin; by eexists.
Qed.

Lemma five_rows_matching_marginals :
  matching_predictions five_rows_indexer five_rows_marginals.
Proof.
  split; [reflexivity|]. intros key idxs Hin.
  each_group Hin; by eexists.
Qed.

Example five_rows_means_reassembled :
  concatenate_mean_predictions listed_rows zero_filled
    five_rows_indexer five_rows_means
  = Ok [0%Z; 10%Z; 20%Z; 30%Z; 40%Z].
Proof. reflexivity. Qed.

Example five_rows_joints_reassembled :
  concatenate_marginal_predictions listed_rows zero_filled
    five_rows_indexer five_rows_joints
  = Ok (MkDistribution [0%Z; 10%Z; 20%Z; 30%Z; 40%Z]
                       [1%Z; 2%Z; 3%Z; 9%Z; 5%Z]).
Proof. reflexivity. Qed.

(** A dataset of six rows with five of them listed: the count check
    fails. *)
Example five_of_six_rows_abort :
  concatenate_mean_predictions (λ _, 6) zero_filled
    five_rows_indexer five_rows_means
  = AssertionFailure.
Proof. reflexivity. Qed.

(** A row listed twice and a row never listed: the count is right, the
    check passes, and row [2] keeps what the fresh vector held. *)
Example double_listed_row_passes :
  concatenate_mean_predictions listed_rows zero_filled
    [("a", [3; 0]); ("b", [1]); ("c", [4; 3])] five_rows_means
  = Ok [0%Z; 10%Z; 0%Z; 20%Z; 40%Z].
Proof. reflexivity. Qed.

(** [reassembly_writes_every_row_once] on the five-row example: row [3]
    is the first row of group "a". *)
Lemma reassembly_writes_every_row_once_witness :
  ∃ pred marginal,
    concatenate_mean_predictions listed_rows zero_filled
      five_rows_indexer five_rows_means = Ok pred
    ∧ concatenate_marginal_predictions listed_rows zero_filled
        five_rows_indexer five_rows_joints = Ok marginal
    ∧ pred !! 3 = Some 30%Z
    ∧ mean marginal !! 3 = Some 30%Z
    ∧ covariance marginal !! 3 = Some 9%Z.
Proof.
  destruct (reassembly_writes_every_row_once listed_rows zero_filled
              five_rows_indexer five_rows_means five_rows_joints
              five_rows_matching_means five_rows_matching_joints)
    as [Hpart _].
  destruct (Hpart five_rows_partition)
    as (_ & _ & (pred & Hpred & _ & Hget) & (marginal & Hmarg & _ & Hget')).
  exists pred, marginal.
  assert (("a", [3; 0]) ∈ five_rows_indexer) as Hin by left.
  destruct (Hget' "a" [3; 0] _ 0 3 Hin eq_refl eq_refl) as [Hmu Hvar].
  split_and!; [done..| | |].
  - exact (Hget "a" [3; 0] _ 0 3 Hin eq_refl eq_refl).
  - exact Hmu.
  - exact Hvar.
Defined.

(** [marginal_reassembly_keeps_diagonal_only] on the five-row example:
    the variance of row [4] is the first diagonal entry of group "c", and
    the covariance of rows [3] and [4], of different groups, is zero. *)
Lemma marginal_reassembly_keeps_diagonal_only_witness :
  ∃ marginal : MarginalDistribution Z,
    concatenate_marginal_predictions listed_rows zero_filled
      five_rows_indexer five_rows_joints = Ok marginal
    ∧ covariance marginal !! 4 = Some 5%Z
    ∧ diagonal_coeff 0%Z (covariance marginal) 3 4 = Some 0%Z.
Proof.
  destruct (marginal_reassembly_keeps_diagonal_only listed_rows zero_filled
              five_rows_indexer 0%Z five_rows_joints five_rows_marginals
              five_rows_partition)
    as [Hjoint _].
  destruct (Hjoint five_rows_matching_joints)
    as (marginal & Hok & _ & Hget & Hoff).
  exists marginal.
  assert (("c", [4; 2]) ∈ five_rows_indexer) as Hin by (right; right; left).
  split_and!; [done| |].
  - exact (Hget "c" [4; 2] _ 0 4 Hin eq_refl eq_refl).
  - apply Hoff; cbn; lia.
Defined.

(** ** [get_predictions] *)

Section ApplyProperties.
Context {K A B : Type}.
Implicit Types f : K → A → outcome B.
Implicit Types g : list (K * A).

Lemma apply_key_value_ok f g res :
  apply_key_value f g = Ok res ↔
  Forall2 (λ ka kb, kb.1 = ka.1 ∧ f ka.1 ka.2 = Ok kb.2) g res.
Proof.
  revert res. induction g as [|[k a] g IH]; intros res.
  - cbn. split.
    + intros [= <-]. constructor.
    + by intros ->%Forall2_nil_inv_l.
  - cbn [apply_key_value]. split.
    + intros (b & Hb & H)%outcome_bind_ok_inv.
      apply outcome_bind_ok_inv in H as (rest & Hrest & [= <-]).
      constructor; [done|]. by apply IH.
    + intros ([k' b] & rest & [Hk Hb] & Hrest & ->)%Forall2_cons_inv_l.
      cbn in Hk, Hb. subst k'. rewrite Hb.
      apply IH in Hrest. cbn [mbind outcome_mbind outcome_bind].
      by rewrite Hrest.
Qed.

(** When the function can only return or fail an assertion, so can
    [apply]. *)
Lemma apply_key_value_ok_or_abort f g :
  Forall (λ ka, is_ok (f ka.1 ka.2) = true
                ∨ f ka.1 ka.2 = AssertionFailure) g →
  is_ok (apply_key_value f g) = true
  ∨ apply_key_value f g = AssertionFailure.
Proof.
  induction 1 as [|[k a] g [Hok|Hab] _ IH]; [by left| |].
  - cbn [apply_key_value]. cbn in Hok.
    destruct (f k a) as [b| | |]; try done.
    cbn [mbind outcome_mbind outcome_bind].
    destruct IH as [Hok'| ->]; [|by right].
    destruct (apply_key_value f g); try done. by left.
  - cbn [apply_key_value]. cbn in Hab. rewrite Hab. by right.
Qed.
End ApplyProperties.

Section GetPredictionsProperties.
Context {scalar FeatureType GroupKey ModelType Fit : Type}.
Context (model_fit : ModelType → RegressionDataset scalar FeatureType →
                     outcome (fit_model.FitModel ModelType Fit)).

(** Whatever the model does in [fit], the prediction of a fold is bound to
    the model fitted on that fold's training data, and to that fold's
    training features; no fold enters the prediction of another. *)
Lemma get_predictions_ok (model : ModelType)
    (folds : RegressionFolds scalar FeatureType GroupKey) predictions :
  get_predictions model_fit model folds = Ok predictions ↔
  Forall2 (λ kf kp,
             kp.1 = kf.1
             ∧ ∃ fm, model_fit model (train_dataset kf.2) = Ok fm
                     ∧ kp.2 = fit_model.MkPrediction
                                (fit_model.model_ fm) (fit_model.fit_ fm)
                                (features (train_dataset kf.2)))
          folds predictions.
Proof.
  unfold get_predictions, apply_value. rewrite apply_key_value_ok.
  split; intros H; (eapply Forall2_impl; [exact H|]); clear H;
    intros [k fold] [k' p]; cbn; unfold predict_group.
  - intros [-> (fm & Hfm & [= <-])%outcome_bind_ok_inv]. eauto.
  - intros [-> (fm & Hfm & ->)]. split; [done|]. by rewrite Hfm.
Qed.
End GetPredictionsProperties.

(** C1, on the code.  On the leave-one-out folds of three rows every
    fold is fitted on its own two training rows, and its prediction is
    bound to those same two training rows: the prediction of fold "0"
    asks for the features [20; 30], where the fold holds out [10]. *)
Theorem get_predictions_asks_for_training_features :
  get_predictions remembering_fit () leave_one_out_folds
  = Ok [("0", fit_model.MkPrediction () [20%Z; 30%Z] [20%Z; 30%Z]);
        ("1", fit_model.MkPrediction () [10%Z; 30%Z] [10%Z; 30%Z]);
        ("2", fit_model.MkPrediction () [10%Z; 20%Z] [10%Z; 20%Z])]
  ∧ features (test_dataset first_fold) = [10%Z]
  ∧ features (train_dataset first_fold) = [20%Z; 30%Z].
Proof. split_and!; reflexivity. Qed.

(** ** [cross_validated_scores] *)

Section ScoresProperties.
Context {scalar FeatureType GroupKey : Type} `{EqDecision GroupKey}.
Context {PredictionType : Type} (prediction_size : PredictionType → nat).
Context (metric : PredictionType → MarginalDistribution scalar → outcome scalar).
Implicit Types folds : RegressionFolds scalar FeatureType GroupKey.
Implicit Types predictions : list (GroupKey * PredictionType).
Implicit Types fold : RegressionFold scalar FeatureType.

Local Abbreviation score := (score_one_group prediction_size metric).
Local Abbreviation scores_of := (cross_validated_scores prediction_size metric).

(** One group: the size check comes first, the metric second. *)
Lemma score_one_group_eq predictions key fold p :
  map_at predictions key = Ok p →
  score predictions key fold =
  if bool_decide (dataset_size (test_dataset fold) = prediction_size p)
  then metric p (targets (test_dataset fold))
  else AssertionFailure.
Proof.
  intros Hp. unfold score_one_group. rewrite Hp.
  cbn [mbind outcome_mbind outcome_bind].
  by case_bool_decide.
Qed.

Lemma score_one_group_ok predictions key fold s :
  score predictions key fold = Ok s ↔
  ∃ p, map_at predictions key = Ok p
       ∧ dataset_size (test_dataset fold) = prediction_size p
       ∧ metric p (targets (test_dataset fold)) = Ok s.
Proof.
  split.
  - intros H. destruct (map_at predictions key) as [p| | |] eqn:Hp;
      try (by unfold score_one_group in H; rewrite Hp in H).
    rewrite (score_one_group_eq _ _ _ _ Hp) in H.
    case_bool_decide; [|done]. eauto.
  - intros (p & Hp & Hsz & Hs).
    rewrite (score_one_group_eq _ _ _ _ Hp).
    by rewrite bool_decide_eq_true_2.
Qed.

Lemma cross_validated_scores_ok folds predictions scores :
  scores_of folds predictions = Ok scores ↔
  Forall2 (λ kf s, score predictions kf.1 kf.2 = Ok s) folds scores.
Proof.
  unfold cross_validated_scores, combine. split.
  - intros H.
    destruct (apply_key_value _ _) as [res| | |] eqn:Hres; try done.
    injection H as <-. apply apply_key_value_ok in Hres.
    apply Forall2_fmap_r.
    eapply Forall2_impl; [exact Hres|]. by intros ?? [_ ?].
  - intros H.
    assert (apply_key_value (score predictions) folds
            = Ok (zip folds.*1 scores)) as ->.
    { apply apply_key_value_ok. clear -H.
      induction H as [|[k fold] s folds scores Hs _ IH];
        cbn; by constructor. }
    cbn. f_equal. apply snd_zip.
    rewrite length_fmap. by apply Forall2_length in H as ->.
Qed.

(** C10.  With a prediction for every key of the folds: a group whose
    prediction has not the size of its test dataset fails the assertion,
    whatever the metric would do; a group that passes is scored by the
    metric on its own prediction and its own test targets; the scores
    come back one per fold and in the order of the folds; and unless the
    metric itself aborts, one group of the wrong size makes the whole
    call abort. *)
Theorem cross_validated_scores_checks_every_fold folds predictions :
  Forall (λ kf, is_ok (map_at predictions kf.1) = true) folds →
  (∀ key fold p,
     map_at predictions key = Ok p →
     dataset_size (test_dataset fold) ≠ prediction_size p →
     score predictions key fold = AssertionFailure)
  ∧ (∀ key fold p,
       map_at predictions key = Ok p →
       dataset_size (test_dataset fold) = prediction_size p →
       score predictions key fold = metric p (targets (test_dataset fold)))
  ∧ (∀ scores,
       scores_of folds predictions = Ok scores ↔
       Forall2 (λ kf s,
                  ∃ p, map_at predictions kf.1 = Ok p
                       ∧ dataset_size (test_dataset kf.2) = prediction_size p
                       ∧ metric p (targets (test_dataset kf.2)) = Ok s)
               folds scores)
  ∧ ((∀ p truth, is_ok (metric p truth) = true) →
     Exists (λ kf, ∃ p, map_at predictions kf.1 = Ok p
                        ∧ dataset_size (test_dataset kf.2) ≠ prediction_size p)
            folds →
     scores_of folds predictions = AssertionFailure).
Proof.
  intros Hkeys. split_and!.
  - intros key fold p Hp Hne. rewrite (score_one_group_eq _ _ _ _ Hp).
    by rewrite bool_decide_eq_false_2.
  - intros key fold p Hp Heq. rewrite (score_one_group_eq _ _ _ _ Hp).
    by rewrite bool_decide_eq_true_2.
  - intros scores. rewrite cross_validated_scores_ok.
    split; intros H; (eapply Forall2_impl; [exact H|]); clear H;
      intros [k fold] s; cbn; by rewrite score_one_group_ok.
  - intros Htotal Hbad.
    destruct (scores_of folds predictions) as [scores| | |] eqn:Hs.
    + exfalso. apply cross_validated_scores_ok in Hs.
      apply Exists_exists in Hbad as ([k fold] & Hin & p & Hp & Hne).
      apply list_elem_of_lookup_1 in Hin as [i Hi].
      destruct (Forall2_lookup_l _ _ _ _ _ Hs Hi) as (s & _ & Hscore).
      cbn in *. apply score_one_group_ok in Hscore as (p' & Hp' & Heq & _).
      rewrite Hp in Hp'. by injection Hp' as <-.
    + done.
    + exfalso. revert Hs. unfold cross_validated_scores.
      destruct (apply_key_value_ok_or_abort (score predictions) folds)
        as [Hok| ->]; [| |done].
      { eapply Forall_impl; [exact Hkeys|]. intros [k fold]. cbn.
        destruct (map_at predictions k) as [p| | |] eqn:Hp; try done.
        intros _. rewrite (score_one_group_eq _ _ _ _ Hp).
        case_bool_decide; [left; apply Htotal|by right]. }
      by destruct (apply_key_value _ _).
    + exfalso. revert Hs. unfold cross_validated_scores.
      destruct (apply_key_value_ok_or_abort (score predictions) folds)
        as [Hok| ->]; [| |done].
      { eapply Forall_impl; [exact Hkeys|]. intros [k fold]. cbn.
        destruct (map_at predictions k) as [p| | |] eqn:Hp; try done.
        intros _. rewrite (score_one_group_eq _ _ _ _ Hp).
        case_bool_decide; [left; apply Htotal|by right]. }
      by destruct (apply_key_value _ _).
Qed.
End ScoresProperties.

Example held_out_scores :
  cross_validated_scores (length (A:=Z)) sum_of_errors
    leave_one_out_folds held_out_means
  = Ok [10%Z; 17%Z; 30%Z].
Proof. reflexivity. Qed.

(** [cross_validated_scores_checks_every_fold] on the leave-one-out
    folds: three scores, in the order of the folds. *)
Lemma cross_validated_scores_checks_every_fold_witness :
  Forall2 (λ kf s,
             ∃ p, map_at held_out_means kf.1 = Ok p
                  ∧ dataset_size (test_dataset kf.2) = length p
                  ∧ sum_of_errors p (targets (test_dataset kf.2)) = Ok s)
          leave_one_out_folds [10%Z; 17%Z; 30%Z].
Proof.
  assert (Forall (λ kf : string * RegressionFold Z Z,
                    is_ok (map_at held_out_means kf.1) = true)
                 leave_one_out_folds) as Hkeys
    by (repeat constructor).
  destruct (cross_validated_scores_checks_every_fold (length (A:=Z))
              sum_of_errors leave_one_out_folds held_out_means Hkeys)
    as (_ & _ & Hscores & _).
  apply Hscores. reflexivity.
Defined.

(** ** Tuning under priors *)

Example scripted_tune_result :
  scripted_tune 20
  = Ok [("sigma", Tune.MkParam 1%Q (Some positive_prior));
        ("length_scale", Tune.MkParam 1%Q (Some positive_prior))].
Proof. reflexivity. Qed.

Section TuneProperties.
Context {scalar : Type}.
Context (zero : scalar) (plus minus : scalar → scalar → scalar).
Context (transform inverse_transform :
           Tune.Param scalar → scalar → scalar).
Context (cross_validated_metric :
           Tune.ParameterStore scalar → outcome (Tune.objective_value scalar)).
Context (optimizer :
           (list scalar → outcome (Tune.objective_value scalar)) →
           list scalar → nat → outcome (list scalar)).
Implicit Types ps : Tune.ParameterStore scalar.
Implicit Types x : list scalar.

Local Abbreviation set_values := (Tune.set_tunable_values inverse_transform).
Local Abbreviation objective :=
  (Tune.objective zero plus minus inverse_transform cross_validated_metric).
Local Abbreviation tune :=
  (Tune.tune zero plus minus transform inverse_transform
     cross_validated_metric optimizer).








End TuneProperties.





(** * Further properties of [model.h] *)

Section ModelComposition.
Context {scalar FeatureType Impl ParameterStore : Type}.
Context (params_eqb : ParameterStore → ParameterStore → bool).
Implicit Types m other : RegressionModel scalar FeatureType Impl ParameterStore.
Implicit Types fs : list FeatureType.
Implicit Types ts : MarginalDistribution scalar.

(** X1.  A dataset that came out of the two-argument constructor never
    fails the length check of [fit]: fitting it aborts exactly when it has
    no features, and otherwise runs [fit_] on its features and targets. *)
Theorem fit_of_constructed_dataset fs ts dataset m :
  make_RegressionDataset fs ts = Ok dataset →
  (fs = [] → fit_dataset dataset m = IO [] AssertionFailure)
  ∧ (fs ≠ [] →
     fit_dataset dataset m =
     d ← fit_ (vptr m) fs ts (derived m);
     mret (MkRegressionModel (vptr m) d true)).
Proof.
  unfold make_RegressionDataset.
  intros ([] & Hsz & [= <-])%outcome_bind_ok_inv.
  unfold cpp_assert in Hsz.
  destruct (s32_eqb _ _) eqn:Heq; [|done]. apply s32_eqb_true in Heq.
  unfold fit_dataset. cbn [features targets]. split.
  - intros ->. apply fit_rejects. by left.
  - intros Hne. apply fit_accepts; [|done].
    destruct fs; [done|]. cbn. lia.
Qed.

(** X2.  For a model whose class does not override [has_been_fit()]:
    once [fit] has returned, the model it returns cannot be asked whether
    it equals another one, the comparison aborts; and a model that
    answers that it has not been fit is told it differs from it. *)
Theorem fitted_model_is_not_comparable fs ts m m' other :
  has_been_fit_override (vptr m) = None →
  result (fit fs ts m) = Ok m' →
  operator_eq params_eqb m' other = IO [] AssertionFailure
  ∧ (has_been_fit other = false →
     operator_eq params_eqb other m' = IO [] (Ok false)).
Proof.
  intros Hover (_ & _ & _ & Hv & Hfit)%fit_ok_inv.
  assert (has_been_fit m' = true) as Hm'
    by (by rewrite has_been_fit_inherited by (by rewrite Hv)).
  rewrite !operator_eq_unfold, Hm'. split; [done|].
  intros ->. cbn. by rewrite andb_false_r.
Qed.

(** X3.  On models that have not been fit the comparison is as good as
    the comparison of the parameters: reflexive when that one is, and
    symmetric when that one is. *)
Theorem operator_eq_on_unfit_models m other :
  (∀ p, params_eqb p p = true) →
  (∀ p q, params_eqb p q = params_eqb q p) →
  has_been_fit m = false → has_been_fit other = false →
  operator_eq params_eqb m m = IO [] (Ok true)
  ∧ operator_eq params_eqb m other = operator_eq params_eqb other m.
Proof.
  intros Hrefl Hsym Hm Ho. rewrite !operator_eq_unfold, Hm, Ho. split.
  - by rewrite String.eqb_refl, Hrefl.
  - do 2 f_equal. rewrite (String.eqb_sym (get_name (vptr m) (derived m))).
    by rewrite (Hsym (get_params (vptr m) (derived m))).
Qed.






(** X5.  For a model whose class does not override [has_been_fit()],
    [fit_and_predict] returns exactly when the training features are not
    empty and as many as the targets (as [s32]), [fit_] returns, the
    prediction member returns on the test features, and its result is as
    long as the test features (as [s32]).  For such a model the assertion
    of [predict] that the model has been fit never fails here, whatever
    the flag was before; the model handed back has the flag set. *)
Theorem fit_and_predict_returns_iff fid fs ts fs' m m' preds :
  has_been_fit_override (vptr m) = None →
  result (fit_and_predict fid fs ts fs' m) = Ok (m', preds) ↔
  fs ≠ []
  ∧ s32_of (length fs) = s32_of (size ts)
  ∧ ∃ d, result (fit_ (vptr m) fs ts (derived m)) = Ok d
         ∧ m' = MkRegressionModel (vptr m) d true
         ∧ result (predict_impl fid (vptr m) fs' d) = Ok preds
         ∧ s32_of (predicted_size fid preds) = s32_of (length fs').
Proof.
  intros Hover. split.
  - intros [Hfit Hpred]%fit_and_predict_ok_inv.
    apply fit_ok_inv in Hfit as (Hpos & Hsz & Hd & Hv & Hf).
    apply predict_ok_inv in Hpred as (_ & Hp & Hs).
    split_and!; [by destruct fs; [cbn in Hpos; lia|]|done|].
    exists (derived m'). rewrite Hv in Hp. split_and!; try done.
    destruct m' as [c d b]. cbn in *. by subst.
  - intros (Hne & Hsz & d & Hd & -> & Hp & Hs).
    unfold fit_and_predict.
    assert (0 < length fs) as Hpos by (destruct fs; [done|cbn; lia]).
    assert (result (fit fs ts m) = Ok (MkRegressionModel (vptr m) d true))
      as Hfit.
    { rewrite (fit_accepts _ _ _ Hpos Hsz). by rewrite (io_bind_ok _ _ _ Hd). }
    assert (result (predict fid fs' (MkRegressionModel (vptr m) d true))
            = Ok preds) as Hpred.
    { rewrite (predict_fit fid fs' _ preds);
        [|by rewrite has_been_fit_inherited|done].
      apply s32_eqb_true in Hs. cbn. by rewrite Hs. }
    rewrite (io_bind_ok _ _ _ Hfit). cbn [result].
    by rewrite (io_bind_ok _ _ _ Hpred).
Qed.
End ModelComposition.

Lemma fit_of_constructed_dataset_witness :
  fit_dataset (MkRegressionDataset [10%Z; 20%Z; 30%Z] three_targets [])
    unfit_model
  = IO [] (Ok fitted_model).
Proof.
  destruct (fit_of_constructed_dataset [10%Z; 20%Z; 30%Z] three_targets
              (MkRegressionDataset [10%Z; 20%Z; 30%Z] three_targets [])
              unfit_model eq_refl) as [_ H].
  rewrite H; [reflexivity|discriminate].
Defined.

Lemma fitted_model_is_not_comparable_witness :
  operator_eq int_params_eqb fitted_model unfit_model = IO [] AssertionFailure
  ∧ operator_eq int_params_eqb unfit_model fitted_model = IO [] (Ok false).
Proof.
  destruct (fitted_model_is_not_comparable int_params_eqb
              [10%Z; 20%Z; 30%Z] three_targets unfit_model fitted_model
              unfit_model eq_refl eq_refl) as [H1 H2].
  split; [exact H1|exact (H2 eq_refl)].
Defined.

Lemma int_params_eqb_refl p : int_params_eqb p p = true.
Proof. unfold int_params_eqb. by apply bool_decide_eq_true_2. Qed.

Lemma int_params_eqb_sym p q : int_params_eqb p q = int_params_eqb q p.
Proof. unfold int_params_eqb. apply bool_decide_ext. split; congruence. Qed.

Lemma operator_eq_on_unfit_models_witness :
  operator_eq int_params_eqb unfit_model unfit_model = IO [] (Ok true)
  ∧ operator_eq int_params_eqb unfit_model
      (new_RegressionModel one_element_model ())
    = operator_eq int_params_eqb
        (new_RegressionModel one_element_model ()) unfit_model.
Proof.
  exact (operator_eq_on_unfit_models int_params_eqb unfit_model
           (new_RegressionModel one_element_model ())
           int_params_eqb_refl int_params_eqb_sym eq_refl eq_refl).
Defined.


Lemma fit_and_predict_returns_iff_witness :
  result (fit_and_predict Marginal [20%Z; 30%Z]
            (MkDistribution [2%Z; 3%Z] [0%Z; 0%Z]) [10%Z] unfit_model)
  = Ok (fitted_model, MkDistribution [10%Z] [100%Z]).
Proof.
  apply (fit_and_predict_returns_iff Marginal [20%Z; 30%Z]
           (MkDistribution [2%Z; 3%Z] [0%Z; 0%Z]) [10%Z] unfit_model
           fitted_model (MkDistribution [10%Z] [100%Z]) eq_refl).
  split_and!; [discriminate|reflexivity|].
  exists (). split_and!; reflexivity.
Defined.

(** * Further properties of [cross_validation_utils.hpp] *)

Lemma map_at_fmap {K V W} `{EqDecision K} (f : V → W)
    (m : list (K * V)) (k : K) :
  map_at (prod_map id f <$> m) k = f <$> map_at m k.
Proof.
  induction m as [|[k' v] m IH]; [done|]. cbn.
  by case_decide.
Qed.

Lemma map_at_out_of_range {K V} `{EqDecision K} (m : list (K * V)) (k : K) :
  map_at m k = OutOfRange ↔ k ∉ m.*1.
Proof.
  induction m as [|[k' v] m IH]; cbn.
  - split; [intros _; apply not_elem_of_nil|done].
  - case_decide as Hk.
    + subst. split; [done|]. intros []. left.
    + rewrite IH, not_elem_of_cons. split; [by split|by intros [_ ?]].
Qed.

Lemma map_at_ok_or_out_of_range {K V} `{EqDecision K}
    (m : list (K * V)) (k : K) :
  is_ok (map_at m k) = true ∨ map_at m k = OutOfRange.
Proof.
  induction m as [|[k' v] m IH]; [by right|]. cbn.
  case_decide; [by left|done].
Qed.

Lemma apply_key_value_ext {K A B} (f g : K → A → outcome B) (l : list (K * A)) :
  (∀ k a, (k, a) ∈ l → f k a = g k a) →
  apply_key_value f l = apply_key_value g l.
Proof.
  induction l as [|[k a] l IH]; intros Hfg; [done|]. cbn.
  rewrite (Hfg k a) by left. rewrite IH; [done|].
  intros k' a' Hin. apply Hfg. by right.
Qed.

Lemma apply_key_value_app {K A B} (f : K → A → outcome B)
    (l1 l2 : list (K * A)) res1 :
  apply_key_value f l1 = Ok res1 →
  apply_key_value f (l1 ++ l2) = (res1 ++.) <$> apply_key_value f l2.
Proof.
  revert res1. induction l1 as [|[k a] l1 IH]; intros res1.
  - cbn. intros [= <-]. by destruct (apply_key_value f l2).
  - cbn [apply_key_value app].
    intros (b & Hb & H)%outcome_bind_ok_inv.
    apply outcome_bind_ok_inv in H as (rest & Hrest & [= <-]).
    rewrite Hb. cbn [mbind outcome_mbind outcome_bind].
    rewrite (IH _ Hrest). by destruct (apply_key_value f l2).
Qed.

Section ScoresComposition.
Context {scalar FeatureType GroupKey : Type} `{EqDecision GroupKey}.
Implicit Types folds : RegressionFolds scalar FeatureType GroupKey.

(** X6.  The overload of [cross_validated_scores] that takes
    distributions and a metric on mean vectors gives what the general one
    gives with the metric applied to the mean of each distribution: the
    same scores, the same failures. *)
Theorem cross_validated_scores_of_means_spec {C : Type}
    (metric : VectorXd scalar → MarginalDistribution scalar → outcome scalar)
    folds (predictions : list (GroupKey * Distribution scalar C)) :
  cross_validated_scores_of_means metric folds predictions
  = cross_validated_scores size (λ p truth, metric (mean p) truth)
      folds predictions.
Proof.
  unfold cross_validated_scores_of_means, cross_validated_scores.
  f_equal. apply apply_key_value_ext. intros key fold _.
  unfold score_one_group. rewrite map_at_fmap.
  by destruct (map_at predictions key).
Qed.

Section AnyPrediction.
Context {PredictionType : Type} (prediction_size : PredictionType → nat).
Context (metric : PredictionType → MarginalDistribution scalar → outcome scalar).
Implicit Types predictions : list (GroupKey * PredictionType).

Local Abbreviation scores_of := (cross_validated_scores prediction_size metric).

Lemma score_one_group_missing predictions key
    (fold : RegressionFold scalar FeatureType) :
  map_at predictions key = OutOfRange →
  score_one_group prediction_size metric predictions key fold = OutOfRange.
Proof. unfold score_one_group. by intros ->. Qed.

(** X7.  A fold without a prediction is not an assertion failure: when
    the folds before it are scored, [std::out_of_range] leaves the call
    at the first fold whose key the predictions lack. *)
Theorem cross_validated_scores_missing_prediction
    (folds_before folds_after : RegressionFolds scalar FeatureType GroupKey)
    key fold predictions scores_before :
  scores_of folds_before predictions = Ok scores_before →
  key ∉ predictions.*1 →
  scores_of (folds_before ++ (key, fold) :: folds_after) predictions
  = OutOfRange.
Proof.
  unfold cross_validated_scores. intros Hbefore Hkey.
  destruct (apply_key_value _ folds_before) as [res| | |] eqn:Hres; try done.
  rewrite (apply_key_value_app _ _ _ _ Hres). cbn [apply_key_value].
  apply map_at_out_of_range in Hkey.
  by rewrite (score_one_group_missing _ _ _ Hkey).
Qed.

(** X8.  Only the predictions under the keys of the folds are read:
    two prediction maps that agree there give the same result, however
    many other predictions either of them holds. *)
Theorem cross_validated_scores_reads_fold_keys_only folds predictions predictions' :
  (∀ key, key ∈ folds.*1 → map_at predictions key = map_at predictions' key) →
  scores_of folds predictions = scores_of folds predictions'.
Proof.
  intros Hagree. unfold cross_validated_scores. f_equal.
  apply apply_key_value_ext. intros key fold Hin.
  unfold score_one_group. rewrite Hagree; [done|].
  apply list_elem_of_fmap. by exists (key, fold).
Qed.
End AnyPrediction.
End ScoresComposition.

Lemma cross_validated_scores_missing_prediction_witness :
  cross_validated_scores (length (A:=Z)) sum_of_errors
    leave_one_out_folds two_held_out_means
  = OutOfRange.
Proof.
  apply (cross_validated_scores_missing_prediction (length (A:=Z))
           sum_of_errors [("0", first_fold)] [("2", third_fold)]
           "1" second_fold two_held_out_means [10%Z]).
  - reflexivity.
  - cbn. intros H.
    repeat (apply elem_of_cons in H as [H|H]; [discriminate|]).
    by apply elem_of_nil in H.
Defined.

Lemma cross_validated_scores_reads_fold_keys_only_witness :
  cross_validated_scores (length (A:=Z)) sum_of_errors
    leave_one_out_folds held_out_means
  = cross_validated_scores (length (A:=Z)) sum_of_errors
      leave_one_out_folds (held_out_means ++ [("9", [1%Z; 2%Z; 3%Z])]).
Proof.
  apply cross_validated_scores_reads_fold_keys_only.
  intros key Hkey. cbn in Hkey.
  repeat (apply elem_of_cons in Hkey as [->|Hkey]); try reflexivity.
  by apply elem_of_nil in Hkey.
Defined.

Lemma for_each_app {S X} (body : S → X → outcome S) (l1 l2 : list X) (s : S) :
  for_each body (l1 ++ l2) s = for_each body l1 s ≫= for_each body l2.
Proof.
  revert s. induction l1 as [|x l1 IH]; intros s; [done|].
  cbn [for_each app]. destruct (body s x) as [s'| | |]; try done.
  cbn [mbind outcome_mbind outcome_bind]. apply IH.
Qed.

Section ReassemblyEdges.
Context {scalar : Type}.
Context (dataset_size_from_indexer : GroupIndexer → nat).
Context (uninitialized : string → nat → scalar).
Implicit Types indexer : GroupIndexer.
Implicit Types means : list (string * VectorXd scalar).

Local Abbreviation concatenate_mean :=
  (concatenate_mean_predictions dataset_size_from_indexer uninitialized).
Local Abbreviation concatenate_marginal :=
  (concatenate_marginal_predictions dataset_size_from_indexer uninitialized).

(** Of several assignments to one row, the last one stays. *)
Lemma set_subset_last_assignment (from : VectorXd scalar) indices to to' j r :
  set_subset from indices to = Ok to' →
  indices !! j = Some r → r ∉ drop (S j) indices →
  to' !! r = from !! j.
Proof.
  revert from to j. induction indices as [|i indices IH]; intros from to j.
  - done.
  - destruct from as [|x from]; [done|]. cbn [set_subset].
    intros (to1 & [Hi ->]%assign_coeff_ok_inv & Hrec)%outcome_bind_ok_inv.
    destruct j as [|j]; cbn.
    + intros [= ->] Hlater. rewrite drop_0 in Hlater.
      rewrite (set_subset_untouched _ _ _ _ _ Hrec Hlater).
      by apply list_lookup_insert_eq.
    + intros Hj Hlater. by eapply IH.
Qed.

Lemma VectorXd_new_lookup v n r :
  r < n → VectorXd_new uninitialized v n !! r = Some (uninitialized v r).
Proof.
  intros Hr. unfold VectorXd_new.
  by rewrite list_lookup_fmap, lookup_seq_lt.
Qed.

(** X9.  What [concatenate_mean_predictions] returns when the groups
    need not partition the rows.  A row no group lists holds whatever the
    freshly allocated vector held: it is never given a value.  A row
    listed more than once holds the entry of its last listing, in the
    order of the groups and, within a group, of its indices. *)
Theorem concatenate_mean_last_assignment_stays indexer means pred :
  concatenate_mean indexer means = Ok pred →
  (∀ r, r < dataset_size_from_indexer indexer →
        r ∉ rows_written indexer → pred !! r = Some (uninitialized "pred" r))
  ∧ (∀ before key idxs after m j r,
       indexer = before ++ (key, idxs) :: after →
       map_at means key = Ok m →
       idxs !! j = Some r →
       r ∉ drop (S j) idxs → r ∉ rows_written after →
       pred !! r = m !! j).
Proof.
  intros Hok. split.
  - intros r Hr Hnot.
    apply concatenate_mean_ok_inv in Hok as (_ & _ & _ & Hkeep & _).
    rewrite Hkeep by done. by apply VectorXd_new_lookup.
  - intros before key idxs after m j r -> Hm Hj Hlater Hafter.
    revert Hok. rewrite concatenate_mean_eq.
    intros ([] & _ & H)%outcome_bind_ok_inv.
    apply outcome_bind_ok_inv in H as ([pred' k'] & Hloop & H).
    apply outcome_bind_ok_inv in H as ([] & _ & [= <-]).
    rewrite for_each_app in Hloop.
    apply outcome_bind_ok_inv in Hloop as ([pred1 k1] & _ & Hloop).
    cbn [for_each] in Hloop.
    apply outcome_bind_ok_inv in Hloop as ([pred2 k2] & Hbody & Hrest).
    apply mean_loop_body_ok_inv in Hbody as (m' & Hm' & _ & Hset & _).
    rewrite Hm in Hm'. injection Hm' as <-.
    apply mean_loop_ok_inv in Hrest as (_ & _ & _ & Hkeep & _).
    cbn [fst]. rewrite Hkeep by done.
    by eapply set_subset_last_assignment.
Qed.

(** X11.  With as many mean vectors as groups but a group whose key the
    mean vectors lack, the reassembly does not fail an assertion:
    [std::out_of_range] leaves it at that group, once the groups before
    it are written. *)
Theorem concatenate_mean_missing_key before key idxs after means :
  let indexer := before ++ (key, idxs) :: after in
  length indexer = length means →
  (∀ k i, (k, i) ∈ before →
     ∃ m, map_at means k = Ok m ∧ length m = length i) →
  Forall (λ r, r < dataset_size_from_indexer indexer) (rows_written before) →
  key ∉ means.*1 →
  concatenate_mean indexer means = OutOfRange.
Proof.
  intros indexer Hsz Hbefore Hrange Hkey.
  rewrite concatenate_mean_eq, bool_decide_eq_true_2 by done.
  cbn [mbind outcome_mbind outcome_bind cpp_assert].
  set (n := dataset_size_from_indexer indexer) in *.
  subst indexer. rewrite for_each_app.
  destruct (mean_loop_ok means before (VectorXd_new uninitialized "pred" n) 0)
    as [pred1 Hloop]; [done|by rewrite VectorXd_new_length|].
  rewrite Hloop. cbn [mbind outcome_mbind outcome_bind for_each].
  rewrite mean_loop_body_eq.
  apply map_at_out_of_range in Hkey. by rewrite Hkey.
Qed.

Section AnyCovariance.
Context {C : Type} `{!CovarianceType scalar C}.
Implicit Types preds : list (string * Distribution scalar C).

(** The same scatter into two vectors of one length: where the vectors
    agreed, and at every row that is written, the results agree. *)
Lemma set_subset_agree (from to to' to2 : VectorXd scalar) indices :
  set_subset from indices to = Ok to' → length to2 = length to →
  ∃ to2', set_subset from indices to2 = Ok to2'
          ∧ ∀ r, to2 !! r = to !! r ∨ r ∈ indices → to2' !! r = to' !! r.
Proof.
  revert from to to2. induction indices as [|i indices IH];
    intros from to to2.
  - cbn. intros [= <-] _. exists to2. split; [done|].
    by intros r [?|?%elem_of_nil].
  - destruct from as [|x from]; [done|]. cbn [set_subset].
    intros (to1 & [Hi ->]%assign_coeff_ok_inv & Hrec)%outcome_bind_ok_inv Hlen.
    unfold assign_coeff. rewrite decide_True by lia.
    cbn [mbind outcome_mbind outcome_bind].
    destruct (IH _ _ (<[i:=x]> to2) Hrec) as (to2' & Hset & Hagree).
    { by rewrite !length_insert. }
    exists to2'. split; [done|]. intros r Hr. apply Hagree.
    destruct (decide (r = i)) as [->|Hne].
    + left. by rewrite !list_lookup_insert_eq by lia.
    + rewrite !list_lookup_insert_ne by done.
      destruct Hr as [?|[?|?]%elem_of_cons]; [by left|done|by right].
Qed.

Lemma marginal_loop_mean preds indexer mu var k mu' var' k' mu2 :
  for_each (marginal_loop_body preds) indexer (mu, var, k)
  = Ok (mu', var', k') →
  length mu2 = length mu →
  ∃ mu2',
    for_each (mean_loop_body (prod_map id mean <$> preds)) indexer (mu2, k)
    = Ok (mu2', k')
    ∧ ∀ r, mu2 !! r = mu !! r ∨ r ∈ rows_written indexer →
           mu2' !! r = mu' !! r.
Proof.
  revert mu var k mu2.
  induction indexer as [|[key0 idxs0] indexer IH]; intros mu var k mu2.
  - cbn. intros [= <- <- <-] _. exists mu2. split; [done|].
    by intros r [?|?%elem_of_nil].
  - cbn [for_each].
    intros ([[mu1 var1] k1] & Hbody & Hrest)%outcome_bind_ok_inv Hlen.
    apply marginal_loop_body_ok_inv in Hbody
      as (p0 & Hp0 & Hlen0 & Hmu & _ & ->).
    destruct (set_subset_agree _ _ _ mu2 _ Hmu Hlen) as (mu21 & Hset & Hagree).
    pose proof (set_subset_ok_inv _ _ _ _ Hmu) as (Hl1 & _ & _).
    pose proof (set_subset_ok_inv _ _ _ _ Hset) as (Hl2 & _ & _).
    destruct (IH _ _ _ mu21 Hrest) as (mu2' & Hloop & Hagree');
      [congruence|].
    exists mu2'. split.
    + rewrite mean_loop_body_eq, map_at_fmap, Hp0.
      cbn [fmap outcome_fmap outcome_map mbind outcome_mbind outcome_bind].
      rewrite bool_decide_eq_true_2 by done.
      cbn [mbind outcome_mbind outcome_bind cpp_assert]. rewrite Hset.
      by cbn [mbind outcome_mbind outcome_bind mret outcome_mret].
    + intros r Hr. apply Hagree'. rewrite rows_written_cons in Hr.
      destruct Hr as [?|[?|?]%elem_of_app]; [|left; apply Hagree; by right
                                              |by right].
      left. apply Hagree. by left.
Qed.

(** X10.  Reassembling distributions and taking the mean of the result
    against reassembling their means.  Whenever
    [concatenate_marginal_predictions] returns a distribution,
    [concatenate_mean_predictions] on the mean vectors returns too; its
    vector has the length of that distribution and agrees with its mean
    at every row some group lists.  The rows no group lists are
    indeterminate in both, and nothing relates them; with every row of
    the dataset listed the two vectors are equal. *)
Theorem concatenate_marginal_mean indexer preds marginal :
  concatenate_marginal_predictions dataset_size_from_indexer uninitialized
    indexer preds = Ok marginal →
  ∃ pred,
    concatenate_mean_predictions dataset_size_from_indexer uninitialized
      indexer (prod_map id mean <$> preds) = Ok pred
    ∧ length pred = size marginal
    ∧ (∀ r, r ∈ rows_written indexer → pred !! r = mean marginal !! r)
    ∧ ((∀ r, r < dataset_size_from_indexer indexer →
             r ∈ rows_written indexer) →
       pred = mean marginal).
Proof.
  intros Hmarg.
  pose proof (concatenate_marginal_ok_inv _ _ _ _ _ Hmarg)
    as (_ & _ & Hsize & _).
  revert Hmarg. rewrite concatenate_marginal_eq.
  intros ([] & Hsz & H)%outcome_bind_ok_inv.
  apply outcome_bind_ok_inv in H as ([[mu var] k'] & Hloop & H).
  apply outcome_bind_ok_inv in H as ([] & Hfilled & [= <-]).
  unfold cpp_assert in Hsz, Hfilled.
  case_bool_decide as Hlen; [|done]. case_bool_decide as Hk; [|done].
  cbn [fst snd] in Hk. unfold size in Hsize. cbn [mean fst snd] in Hsize.
  destruct (marginal_loop_mean _ _ _ _ _ _ _ _
              (VectorXd_new uninitialized "pred"
                 (dataset_size_from_indexer indexer)) Hloop)
    as (pred & Hmean & Hagree); [by rewrite !VectorXd_new_length|].
  assert (concatenate_mean_predictions dataset_size_from_indexer
            uninitialized indexer (prod_map id mean <$> preds) = Ok pred)
    as Hok.
  { rewrite concatenate_mean_eq, length_fmap.
    rewrite bool_decide_eq_true_2 by done.
    cbn [mbind outcome_mbind outcome_bind cpp_assert].
    match goal with
    | |- ?x ≫= _ = _ =>
        replace x with (Ok (pred, k')) by (symmetry; exact Hmean)
    end.
    cbn [mbind outcome_mbind outcome_bind fst snd].
    by rewrite bool_decide_eq_true_2. }
  pose proof (concatenate_mean_ok_inv _ _ _ _ _ Hok) as (_ & _ & Hlpred & _).
  exists pred. unfold size. cbn [mean]. split_and!.
  - done.
  - congruence.
  - intros r Hr. apply Hagree. by right.
  - intros Hall. apply list_eq. intros r.
    destruct (decide (r < dataset_size_from_indexer indexer)) as [Hr|Hr].
    + apply Hagree. right. by apply Hall.
    + rewrite !lookup_ge_None_2; [done|lia..].
Qed.
End AnyCovariance.
End ReassemblyEdges.

Lemma concatenate_mean_last_assignment_stays_witness :
  ∃ pred,
    concatenate_mean_predictions listed_rows zero_filled
      overlapping_indexer five_rows_means = Ok pred
    ∧ pred !! 3 = Some 20%Z ∧ pred !! 2 = Some 0%Z.
Proof.
  assert (concatenate_mean_predictions listed_rows zero_filled
            overlapping_indexer five_rows_means
          = Ok [0%Z; 10%Z; 0%Z; 20%Z; 40%Z]) as Hok by reflexivity.
  destruct (concatenate_mean_last_assignment_stays listed_rows zero_filled
              overlapping_indexer five_rows_means _ Hok) as [Hkeep Hlast].
  eexists. split; [exact Hok|]. split.
  - apply (Hlast [("a", [3; 0]); ("b", [1])] "c" [4; 3] [] [40%Z; 20%Z] 1 3);
      try reflexivity; cbn; apply not_elem_of_nil.
  - apply (Hkeep 2); [cbn; lia|]. cbn. intros H.
    repeat (apply elem_of_cons in H as [H|H]; [discriminate|]).
    by apply elem_of_nil in H.
Defined.

Lemma concatenate_mean_missing_key_witness :
  concatenate_mean_predictions listed_rows zero_filled
    five_rows_indexer misnamed_means
  = OutOfRange.
Proof.
  apply (concatenate_mean_missing_key listed_rows zero_filled
           [("a", [3; 0]); ("b", [1])] "c" [4; 2] [] misnamed_means).
  - reflexivity.
  - intros k i Hin. each_group Hin; by eexists.
  - cbn. repeat constructor.
  - cbn. intros H.
    repeat (apply elem_of_cons in H as [H|H]; [discriminate|]).
    by apply elem_of_nil in H.
Defined.

Lemma concatenate_marginal_mean_witness :
  ∃ pred,
    concatenate_mean_predictions listed_rows zero_filled five_rows_indexer
      (prod_map id mean <$> five_rows_joints) = Ok pred
    ∧ pred !! 3 = Some 30%Z.
Proof.
  destruct (concatenate_marginal_mean listed_rows zero_filled
              five_rows_indexer five_rows_joints
              (MkDistribution [0%Z; 10%Z; 20%Z; 30%Z; 40%Z]
                              [1%Z; 2%Z; 3%Z; 9%Z; 5%Z])
              five_rows_joints_reassembled) as (pred & Hok & _ & Hagree & _).
  exists pred. split; [exact Hok|].
  rewrite Hagree; [reflexivity|]. cbn. left.
Defined.

Section GetPredictTypesProperties.
Context {scalar PredictionClass : Type}.
Context (get : ∀ fid, PredictionClass → outcome (PredictType scalar fid)).
Implicit Types classes : list (string * PredictionClass).

Lemma map_emplace_fresh {V} (k : string) (v : V) (m : list (string * V)) :
  k ∉ m.*1 → map_emplace k v m = m ++ [(k, v)].
Proof. intros Hk. unfold map_emplace. by rewrite decide_False. Qed.

Lemma get_predict_types_loop fid classes
    (predictions res : list (string * PredictType scalar fid)) :
  NoDup classes.*1 → (∀ k, k ∈ classes.*1 → k ∉ predictions.*1) →
  for_each (λ acc pred, x ← get fid pred.2; mret (map_emplace pred.1 x acc))
           classes predictions = Ok res ↔
  ∃ res', res = predictions ++ res'
          ∧ Forall2 (λ kp kr, kr.1 = kp.1 ∧ get fid kp.2 = Ok kr.2)
                    classes res'.
Proof.
  revert predictions.
  induction classes as [|[k p] classes IH]; intros predictions Hnd Hfresh.
  - cbn. split.
    + intros [= <-]. exists []. by rewrite app_nil_r.
    + intros (res' & -> & ->%Forall2_nil_inv_l). by rewrite app_nil_r.
  - cbn in Hnd. apply NoDup_cons in Hnd as [Hk Hnd].
    assert (k ∉ predictions.*1) as Hkp by (apply Hfresh; left).
    cbn [for_each fst snd]. split.
    + intros (acc & Hacc & Hrest)%outcome_bind_ok_inv.
      apply outcome_bind_ok_inv in Hacc as (x & Hx & [= <-]).
      rewrite map_emplace_fresh in Hrest by done.
      apply IH in Hrest as (res' & -> & Hall); [|done|].
      * exists ((k, x) :: res'). rewrite <- app_assoc. split; [done|].
        by constructor.
      * intros k' Hk'. rewrite fmap_app, elem_of_app. cbn.
        intros [Hin|Hin%list_elem_of_singleton].
        -- eapply Hfresh; [|done]. by right.
        -- by subst.
    + intros (res' & -> & Hall).
      apply Forall2_cons_inv_l in Hall as ([k' x] & res'' & [Hk' Hx] & Hall & ->).
      cbn in Hk', Hx. subst k'. rewrite Hx.
      cbn [mbind outcome_mbind outcome_bind mret outcome_mret].
      rewrite map_emplace_fresh by done.
      apply IH; [done| |].
      * intros k' Hk'. rewrite fmap_app, elem_of_app. cbn.
        intros [Hin|Hin%list_elem_of_singleton].
        -- eapply Hfresh; [|done]. by right.
        -- by subst.
      * exists res''. by rewrite <- app_assoc.
Qed.

(** X12.  On prediction classes under different keys, which is what a
    [std::map] holds, [get_predict_types] returns exactly when [get]
    returns on every one of them, and returns its results under the same
    keys in the same order; so do [get_means], [get_marginals] and
    [get_joints], its three instances. *)
Theorem get_predict_types_keeps_keys fid classes res :
  NoDup classes.*1 →
  get_predict_types get fid classes = Ok res ↔
  Forall2 (λ kp kr, kr.1 = kp.1 ∧ get fid kp.2 = Ok kr.2) classes res.
Proof.
  intros Hnd. unfold get_predict_types.
  rewrite get_predict_types_loop; [|done|].
  - split; [by intros (res' & -> & ?)|]. intros ?. by exists res.
  - intros k _. apply not_elem_of_nil.
Qed.
End GetPredictTypesProperties.

Lemma get_predict_types_keeps_keys_witness :
  get_marginals get_from_mean held_out_means
  = Ok [("0", MkDistribution [11%Z] [1%Z]);
        ("1", MkDistribution [19%Z] [1%Z]);
        ("2", MkDistribution [33%Z] [1%Z])].
Proof.
  apply (get_predict_types_keeps_keys get_from_mean Marginal held_out_means).
  - cbn. repeat (apply NoDup_cons; split;
      [intros H; repeat (apply elem_of_cons in H as [H|H]; [discriminate|]);
       by apply elem_of_nil in H|]).
    apply NoDup_nil_2.
  - repeat constructor.
Defined.

Lemma apply_key_value_is_ok {K A B} (f : K → A → outcome B) (g : list (K * A)) :
  is_ok (apply_key_value f g) = true ↔
  Forall (λ ka, is_ok (f ka.1 ka.2) = true) g.
Proof.
  induction g as [|[k a] g IH]; [by split; [constructor|]|].
  cbn [apply_key_value]. rewrite Forall_cons. cbn [fst snd].
  rewrite <- IH. clear IH.
  destruct (f k a) as [b| | |]; cbn; [|by split; [|intros []]..].
  destruct (apply_key_value f g); cbn; by split; [|intros []].
Qed.

Section GetPredictionsEdges.
Context {scalar FeatureType GroupKey ModelType Fit : Type}.
Context (model_fit : ModelType → RegressionDataset scalar FeatureType →
                     outcome (fit_model.FitModel ModelType Fit)).
Implicit Types folds : RegressionFolds scalar FeatureType GroupKey.

(** X13.  [get_predictions] adds no failure of its own: it returns
    exactly when [fit] returns on the training dataset of every fold; and
    what it returns has one prediction for every fold, under the keys of
    the folds and in their order. *)
Theorem get_predictions_returns_iff (model : ModelType) folds :
  (is_ok (get_predictions model_fit model folds) = true ↔
   Forall (λ kf, is_ok (model_fit model (train_dataset kf.2)) = true) folds)
  ∧ (∀ predictions,
       get_predictions model_fit model folds = Ok predictions →
       predictions.*1 = folds.*1).
Proof.
  split.
  - unfold get_predictions, apply_value. rewrite apply_key_value_is_ok.
    split; intros H; (eapply Forall_impl; [exact H|]); clear H;
      intros [k fold]; cbn; unfold predict_group;
      by destruct (model_fit model (train_dataset fold)).
  - intros predictions Hok%get_predictions_ok.
    induction Hok as [|[k fold] [k' p] folds predictions [Hk _] _ IH];
      [done|].
    cbn in *. by rewrite Hk, IH.
Qed.
End GetPredictionsEdges.

Lemma get_predictions_returns_iff_witness :
  is_ok (get_predictions remembering_fit () leave_one_out_folds) = true.
Proof.
  apply (get_predictions_returns_iff remembering_fit () leave_one_out_folds).
  repeat constructor.
Defined.
